(** * Survey data analysis app (appp.py): the association-analysis handler

    A shallow embedding of the button handler that cleans two columns,
    tests normality, picks Pearson or Spearman, classifies the coefficient
    and draws the regression line, and of the page around it: reading the
    file, the conversion tool, the descriptive table and the select boxes.

    Python floats and numpy float64 values are IEEE binary64 numbers and are
    modelled by Rocq's primitive floats; NaN is the "missing" marker, as in
    pandas.  Integer columns are taken at their float64 value.  The scipy,
    numpy and string-formatting routines the script calls are parameters of
    the development. *)

From Stdlib Require Import Floats ZArith Bool List String Lia PeanoNat.
Import ListNotations.

Set Warnings "-inexact-float,-notation-for-abbreviation".

Local Open Scope string_scope.
Local Open Scope list_scope.

(** ** Language dictionary *)

Inductive lang := id_lang | en_lang.

(** The entries of [LANG] that the handler reads. *)
Inductive key :=
  | k_result | k_analysis_desc | k_method | k_corr | k_pval | k_normality
  | k_px | k_py | k_error_pairs | k_positive | k_negative
  | k_very_weak | k_weak | k_moderate | k_strong | k_scatter.

Definition LANG (l : lang) (k : key) : string :=
  match l, k with
  | id_lang, k_result => "📌 Hasil Analisis"
  | id_lang, k_analysis_desc => "📝 Deskripsi Analisis"
  | id_lang, k_method => "Metode Korelasi"
  | id_lang, k_corr => "Koefisien Korelasi"
  | id_lang, k_pval => "p-value"
  | id_lang, k_normality => "Uji Normalitas (Shapiro-Wilk)"
  | id_lang, k_px => "p-value X"
  | id_lang, k_py => "p-value Y"
  | id_lang, k_error_pairs =>
      "Data valid tidak cukup untuk analisis (minimal 3 baris setelah hapus missing)."
  | id_lang, k_positive => "positif"
  | id_lang, k_negative => "negatif"
  | id_lang, k_very_weak => "sangat lemah / hampir tidak ada"
  | id_lang, k_weak => "lemah"
  | id_lang, k_moderate => "sedang"
  | id_lang, k_strong => "kuat"
  | id_lang, k_scatter => "Scatter Plot + Garis Regresi"
  | en_lang, k_result => "📌 Analysis Result"
  | en_lang, k_analysis_desc => "📝 Analysis Description"
  | en_lang, k_method => "Correlation Method"
  | en_lang, k_corr => "Correlation Coefficient"
  | en_lang, k_pval => "p-value"
  | en_lang, k_normality => "Normality Test (Shapiro-Wilk)"
  | en_lang, k_px => "p-value X"
  | en_lang, k_py => "p-value Y"
  | en_lang, k_error_pairs =>
      "Not enough valid data (need at least 3 rows after dropping missing)."
  | en_lang, k_positive => "positive"
  | en_lang, k_negative => "negative"
  | en_lang, k_very_weak => "very weak / almost none"
  | en_lang, k_weak => "weak"
  | en_lang, k_moderate => "moderate"
  | en_lang, k_strong => "strong"
  | en_lang, k_scatter => "Scatter Plot + Regression Line"
  end.

(** ** Interpretation of the coefficient (lines 208-219) *)

Section Interpretation.

Variable T : key -> string.

(** [direction = T["positive"] if corr > 0 else T["negative"]] *)
Definition direction (corr : float) : string :=
  if (0 <? corr)%float then T k_positive else T k_negative.

(** The [if abs_r < 0.3 ... elif ... else] chain. *)
Definition strength (corr : float) : string :=
  let abs_r := abs corr in
  if (abs_r <? 0.3)%float then T k_very_weak
  else if (abs_r <? 0.5)%float then T k_weak
  else if (abs_r <? 0.7)%float then T k_moderate
  else T k_strong.

End Interpretation.

(** ** The pandas fragment the script relies on *)

(** Python exceptions, by kind. *)
Inductive exn :=
  | TypeError
  | KeyError
  | OtherError (name : string).

(** A cell of an [object] column: text, a number, or [None]. *)
Inductive obj :=
  | OStr (s : string)
  | ONum (f : float)
  | ONone.

(** A column with its dtype: [float64] (NaN marks a missing value) or
    [object]. *)
Inductive Series :=
  | FloatCol (v : list float)
  | ObjectCol (v : list obj).

(** Ordered, labelled columns.  Labels may repeat: selecting the same label
    twice yields a frame with two columns of that name. *)
Definition DataFrame := list (string * Series).

(** What an indexing expression evaluates to. *)
Inductive pobj :=
  | PSeries (s : Series)
  | PFrame (d : DataFrame).

Definition series_len (s : Series) : nat :=
  match s with
  | FloatCol v => List.length v
  | ObjectCol v => List.length v
  end.

(** [len(data)]: the number of rows. *)
Definition nrows (df : DataFrame) : nat :=
  match df with
  | [] => 0
  | (_, s) :: _ => series_len s
  end.

Definition has_label (c : string) (p : string * Series) : bool :=
  String.eqb (fst p) c.

(** The columns labelled [c], in frame order. *)
Definition select (df : DataFrame) (c : string) : DataFrame :=
  filter (has_label c) df.

(** [df[[k1, ..., kn]]]: the columns of each key in turn; a key that labels
    no column raises [KeyError]. *)
Fixpoint getitem_list (df : DataFrame) (keys : list string)
  : exn + DataFrame :=
  match keys with
  | [] => inr []
  | k :: ks =>
      match select df k with
      | [] => inl KeyError
      | cols =>
          match getitem_list df ks with
          | inl e => inl e
          | inr rest => inr (cols ++ rest)
          end
      end
  end.

(** [df[c]]: a Series when exactly one column carries the label, a
    DataFrame of all of them when the label is repeated. *)
Definition getitem (df : DataFrame) (c : string) : exn + pobj :=
  match select df c with
  | [] => inl KeyError
  | [(_, s)] => inr (PSeries s)
  | cols => inr (PFrame cols)
  end.

(** [df[c] = s]: every column labelled [c] is replaced; a new label is
    appended. *)
Definition setitem (df : DataFrame) (c : string) (s : Series) : DataFrame :=
  if existsb (has_label c) df
  then map (fun p => if has_label c p then (fst p, s) else p) df
  else df ++ [(c, s)].

Definition notna_obj (o : obj) : bool :=
  match o with
  | OStr _ => true
  | ONum f => negb (is_nan f)
  | ONone => false
  end.

Definition notna (s : Series) : list bool :=
  match s with
  | FloatCol v => map (fun f => negb (is_nan f)) v
  | ObjectCol v => map notna_obj v
  end.

Fixpoint and_masks (a b : list bool) : list bool :=
  match a, b with
  | x :: a', y :: b' => (x && y) :: and_masks a' b'
  | _, _ => []
  end.

(** Boolean indexing: the entries whose mask bit is set, in order. *)
Fixpoint keep {A : Type} (mask : list bool) (v : list A) : list A :=
  match mask, v with
  | b :: mask', x :: v' => if b then x :: keep mask' v' else keep mask' v'
  | _, _ => []
  end.

Definition keep_series (mask : list bool) (s : Series) : Series :=
  match s with
  | FloatCol v => FloatCol (keep mask v)
  | ObjectCol v => ObjectCol (keep mask v)
  end.

(** A row survives [dropna] when no column is missing there. *)
Definition row_mask (df : DataFrame) : list bool :=
  fold_right (fun p acc => and_masks (notna (snd p)) acc)
             (repeat true (nrows df)) df.

Definition dropna (df : DataFrame) : DataFrame :=
  let mask := row_mask df in
  map (fun p => (fst p, keep_series mask (snd p))) df.

(** [np.asarray] of a float Series; what the scipy routines receive.  Past
    the cleaning step both columns are float Series (lemma [clean_shape]),
    so the other cases are never reached there. *)
Definition values (arg : pobj) : exn + list float :=
  match arg with
  | PSeries (FloatCol v) => inr v
  | _ => inl TypeError
  end.

(** [Series.min()] and [Series.max()] of a float column. *)
Definition series_min (v : list float) : float :=
  match v with
  | [] => nan
  | x :: v' => fold_left (fun m y => if (y <? m)%float then y else m) v' x
  end.

Definition series_max (v : list float) : float :=
  match v with
  | [] => nan
  | x :: v' => fold_left (fun m y => if (m <? y)%float then y else m) v' x
  end.

Definition numeric_dtype (s : Series) : bool :=
  match s with
  | FloatCol _ => true
  | ObjectCol _ => false
  end.

(** [df.select_dtypes(include=np.number).columns.tolist()] *)
Definition numeric_cols (df : DataFrame) : list string :=
  map fst (filter (fun p => numeric_dtype (snd p)) df).

(** [[c for c in df.columns if df[c].dtype == "object"]] *)
Definition convert_candidates (df : DataFrame) : list string :=
  map fst (filter (fun p => negb (numeric_dtype (snd p))) df).

(** ** Effects: Streamlit and matplotlib calls, [st.stop()], exceptions *)

Inductive event :=
  | st_error (body : string)
  | st_subheader (body : string)
  | st_write (body : string)
  | st_metric (column : nat) (label value : string)
  | plt_subplots
  | ax_scatter (x y : list float)
  | ax_plot (x y : list float)
  | ax_set_xlabel (label : string)
  | ax_set_ylabel (label : string)
  | ax_set_title (label : string)
  | ax_grid
  | st_pyplot
  | st_markdown (body : list string).

Inductive outcome (A : Type) :=
  | Ret (a : A)
  | Stopped
  | Raised (e : exn).

Arguments Ret {A} a.
Arguments Stopped {A}.
Arguments Raised {A} e.

(** A run: what was rendered, in order, and how the run ended. *)
Definition M (A : Type) : Type := (list event * outcome A)%type.

Definition ret {A : Type} (a : A) : M A := ([], Ret a).

Definition bind {A B : Type} (m : M A) (k : A -> M B) : M B :=
  match m with
  | (ev, Ret a) => let (ev', o) := k a in (ev ++ ev', o)
  | (ev, Stopped) => (ev, Stopped)
  | (ev, Raised e) => (ev, Raised e)
  end.

Definition emit (e : event) : M unit := ([e], Ret tt).

(** [st.stop()] *)
Definition st_stop {A : Type} : M A := ([], Stopped).

Definition lift {A : Type} (r : exn + A) : M A :=
  match r with
  | inl e => ([], Raised e)
  | inr a => ([], Ret a)
  end.

(** [try: m  except Exception: h] *)
Definition try_except {A : Type} (m : M A) (h : M A) : M A :=
  match m with
  | (ev, Raised _) => let (ev', o) := h in (ev ++ ev', o)
  | _ => m
  end.

Notation "x <- m ;; k" := (bind m (fun x => k))
  (at level 61, m at next level, right associativity).
Notation "m ;;; k" := (bind m (fun _ => k))
  (at level 61, right associativity).

Definition bind_exn {A B : Type} (r : exn + A) (k : A -> exn + B) : exn + B :=
  match r with
  | inl e => inl e
  | inr a => k a
  end.

(** ** The script *)

(** The local variables of the handler once it has run to its end. *)
Record Result := mkResult {
  res_p_x : float;
  res_p_y : float;
  res_method : string;
  res_corr : float;
  res_pval : float;
  res_direction : string;
  res_strength : string;
  res_lr : option (float * float)
}.

Section Script.

(** Parsing of one text cell by [pd.to_numeric]; [None] when the text is
    not a number. *)
Variable parse_float : string -> option float.

(** [scipy.stats]: each routine returns its pair of numbers or raises. *)
Variable shapiro : list float -> exn + (float * float).
Variable pearsonr : list float -> list float -> exn + (float * float).
Variable spearmanr : list float -> list float -> exn + (float * float).
(** [linregress]: (slope, intercept), or an exception. *)
Variable linregress : list float -> list float -> exn + (float * float).

(** [np.linspace(start, stop, num)] *)
Variable linspace : float -> float -> nat -> list float.

(** [f"{v:.nf}"] *)
Variable fmt : nat -> float -> string.

(** *** Numeric coercion: [pd.to_numeric(arg, errors="coerce")] *)

Definition coerce_obj (o : obj) : float :=
  match o with
  | ONum f => f
  | OStr s => match parse_float s with Some f => f | None => nan end
  | ONone => nan
  end.

Definition to_numeric_series (s : Series) : Series :=
  match s with
  | FloatCol v => FloatCol v
  | ObjectCol v => FloatCol (map coerce_obj v)
  end.

(** Only one-dimensional arguments are accepted; a DataFrame raises
    [TypeError]. *)
Definition to_numeric (arg : pobj) : exn + Series :=
  match arg with
  | PSeries s => inr (to_numeric_series s)
  | PFrame _ => inl TypeError
  end.

(** [df[c] = pd.to_numeric(df[c], errors="coerce")] *)
Definition convert_column (df : DataFrame) (c : string) : exn + DataFrame :=
  bind_exn (getitem df c) (fun col =>
  bind_exn (to_numeric col) (fun num =>
  inr (setitem df c num))).

(** The conversion tool (lines 133-134): the loop over [cols_to_convert]. *)
Fixpoint apply_convert (df : DataFrame) (cols_to_convert : list string)
  : exn + DataFrame :=
  match cols_to_convert with
  | [] => inr df
  | c :: cs => bind_exn (convert_column df c) (fun df' => apply_convert df' cs)
  end.

(** *** Cleaning (lines 167-170) *)

Definition clean (df : DataFrame) (col_x col_y : string) : exn + DataFrame :=
  bind_exn (getitem_list df [col_x; col_y]) (fun data =>
  bind_exn (convert_column data col_x) (fun data =>
  bind_exn (convert_column data col_y) (fun data =>
  inr (dropna data)))).

(** *** Normality test (lines 178-188) *)

(** [np.all(x == x[0])]; the caller has checked [len(x) >= 3]. *)
Definition constant (x : list float) : bool :=
  let x0 := hd nan x in
  forallb (fun v => (v =? x0)%float) x.

Definition safe_shapiro (x : list float) : float :=
  if (List.length x <? 3)%nat then nan
  else if constant x then nan
  else match shapiro x with
       | inr (_, p) => p
       | inl _ => nan
       end.

(** *** Method selection (lines 199-206) *)

Definition use_pearson (p_x p_y : float) : bool :=
  negb (is_nan p_x) && negb (is_nan p_y)
  && (0.05 <? p_x)%float && (0.05 <? p_y)%float.

Definition correlate (p_x p_y : float) (x y : list float)
  : exn + (string * (float * float)) :=
  if use_pearson p_x p_y
  then bind_exn (pearsonr x y) (fun r => inr ("Pearson", r))
  else bind_exn (spearmanr x y) (fun r => inr ("Spearman", r)).

(** *** Regression line (lines 239-245) *)

Definition regression_line (x y : list float) : M (option (float * float)) :=
  try_except
    (lr <- lift (linregress x y) ;;
     let '(slope, intercept) := lr in
     let x_line := linspace (series_min x) (series_max x) 100 in
     let y_line := map (fun v => (intercept + slope * v)%float) x_line in
     emit (ax_plot x_line y_line) ;;;
     ret (Some lr))
    (ret None).

(** *** The handler of the analysis button (lines 166-272)

    [data[col_x]] and [data[col_y]] are read at each use in the source
    and once here. *)

Variable lang_sel : lang.

Definition T : key -> string := LANG lang_sel.

Definition normality_text (p : float) : string :=
  if is_nan p then "N/A" else fmt 4 p.

Definition description (method : string) (corr pval : float)
           (dir str : string) : list string :=
  match lang_sel with
  | id_lang =>
      [ ("- Metode yang digunakan: **" ++ method ++ "**")%string;
        ("- Koefisien korelasi: **" ++ fmt 3 corr ++ "** (arah **" ++ dir
           ++ "**, kekuatan **" ++ str ++ "**)")%string;
        ("- p-value: **" ++ fmt 4 pval ++ "**")%string ]
  | en_lang =>
      [ ("- Method used: **" ++ method ++ "**")%string;
        ("- Correlation coefficient: **" ++ fmt 3 corr
           ++ "** (direction **" ++ dir ++ "**, strength **" ++ str
           ++ "**)")%string;
        ("- p-value: **" ++ fmt 4 pval ++ "**")%string ]
  end.

(** Lines 176-272, on the cleaned columns. *)
Definition analyze_cleaned (col_x col_y : string) (x y : list float)
  : M Result :=
  let p_x := safe_shapiro x in
  let p_y := safe_shapiro y in
  emit (st_subheader (T k_normality)) ;;;
  emit (st_write (T k_px ++ ": " ++ normality_text p_x)%string) ;;;
  emit (st_write (T k_py ++ ": " ++ normality_text p_y)%string) ;;;
  c <- lift (correlate p_x p_y x y) ;;
  let '(method, (corr, pval)) := c in
  let dir := direction T corr in
  let str := strength T corr in
  emit (st_subheader (T k_result)) ;;;
  emit (st_metric 1 (T k_method) method) ;;;
  emit (st_metric 2 (T k_corr) (fmt 4 corr)) ;;;
  emit (st_metric 3 (T k_pval) (fmt 4 pval)) ;;;
  emit (st_subheader (T k_scatter)) ;;;
  emit plt_subplots ;;;
  emit (ax_scatter x y) ;;;
  lr <- regression_line x y ;;
  emit (ax_set_xlabel col_x) ;;;
  emit (ax_set_ylabel col_y) ;;;
  emit (ax_set_title (col_x ++ " vs " ++ col_y)%string) ;;;
  emit ax_grid ;;;
  emit st_pyplot ;;;
  emit (st_subheader (T k_analysis_desc)) ;;;
  emit (st_markdown (description method corr pval dir str)) ;;;
  ret (mkResult p_x p_y method corr pval dir str lr).

Definition analyze (df : DataFrame) (col_x col_y : string) : M Result :=
  data <- lift (clean df col_x col_y) ;;
  if (nrows data <? 3)%nat
  then emit (st_error (T k_error_pairs)) ;;; st_stop
  else
    x <- lift (bind_exn (getitem data col_x) values) ;;
    y <- lift (bind_exn (getitem data col_y) values) ;;
    analyze_cleaned col_x col_y x y.

End Script.

(** ** Notions used to state the properties *)

(** Every column of a frame has the same number of rows. *)
Definition well_formed (df : DataFrame) : Prop :=
  forall p q, In p df -> In q df -> series_len (snd p) = series_len (snd q).

(** A row of the two coerced columns is complete when neither value is
    missing. *)
Definition complete_row (r : float * float) : bool :=
  negb (is_nan (fst r)) && negb (is_nan (snd r)).

Section CleanedPair.

Variable parse_float : string -> option float.

(** The numbers of a column after coercion. *)
Definition coerced (s : Series) : list float :=
  match s with
  | FloatCol v => v
  | ObjectCol v => map (coerce_obj parse_float) v
  end.

(** The source rows (x, y), coerced, in row order. *)
Definition rows (sx sy : Series) : list (float * float) :=
  combine (coerced sx) (coerced sy).

(** The cleaned pair as the specification words it: the rows without
    those that miss x or y. *)
Definition CleanedPair (sx sy : Series) : list (float * float) :=
  filter complete_row (rows sx sy).

(** The number of rows with a missing or non-numeric x or y. *)
Definition missing_rows (sx sy : Series) : nat :=
  List.length (filter (fun r => negb (complete_row r)) (rows sx sy)).

(** The two selected columns, coerced, before [dropna]. *)
Definition coerced_pair (col_x col_y : string) (sx sy : Series)
  : DataFrame :=
  [(col_x, FloatCol (coerced sx)); (col_y, FloatCol (coerced sy))].

End CleanedPair.

(** How a run ends once the chosen correlation routine has returned [r]:
    it raises what the routine raised, or completes with that method,
    coefficient and p-value. *)
Definition ends_with (run : M Result) (method : string)
           (r : exn + (float * float)) : Prop :=
  match r with
  | inl e => snd run = Raised e
  | inr (corr, pval) =>
      exists res, snd run = Ret res /\ res_method res = method /\
                  res_corr res = corr /\ res_pval res = pval
  end.

(** [subseq l1 l2]: [l1] is [l2] with some entries left out, the others in
    their order. *)
Inductive subseq {A : Type} : list A -> list A -> Prop :=
  | subseq_nil : subseq [] []
  | subseq_skip (a : A) (l1 l2 : list A) : subseq l1 l2 -> subseq l1 (a :: l2)
  | subseq_cons (a : A) (l1 l2 : list A) :
      subseq l1 l2 -> subseq (a :: l1) (a :: l2).

Definition is_ax_plot (e : event) : bool :=
  match e with
  | ax_plot _ _ => true
  | _ => false
  end.

(** A run with the regression line left out of both the figure and the
    result. *)
Definition without_line (run : M Result) : M Result :=
  (filter (fun e => negb (is_ax_plot e)) (fst run),
   match snd run with
   | Ret r =>
       Ret (mkResult (res_p_x r) (res_p_y r) (res_method r) (res_corr r)
                     (res_pval r) (res_direction r) (res_strength r) None)
   | o => o
   end).

(** ** Sample inputs *)

Module Sample.

Definition parse_float (s : string) : option float :=
  if String.eqb s "7" then Some 7%float else None.

Definition shapiro (x : list float) : exn + (float * float) :=
  inr (0.9, 0.5)%float.

Definition pearsonr (x y : list float) : exn + (float * float) :=
  inr (1, 0)%float.

Definition spearmanr (x y : list float) : exn + (float * float) :=
  inr (nan, nan)%float.

Definition linregress (x y : list float) : exn + (float * float) :=
  inr (2, 0)%float.

Definition linregress_raises (x y : list float) : exn + (float * float) :=
  inl (OtherError "ValueError").

Definition linspace (lo hi : float) (n : nat) : list float := [lo; hi].

Definition fmt (n : nat) (v : float) : string := "0.0000".

(** Five rows, a linear relation. *)
Definition linear : DataFrame :=
  [ ("x", FloatCol [1; 2; 3; 4; 5]%float);
    ("y", FloatCol [2; 4; 6; 8; 10]%float) ].

(** A constant x column. *)
Definition constant_x : DataFrame :=
  [ ("x", FloatCol [1; 1; 1; 1; 1]%float);
    ("y", FloatCol [2; 3; 1; 5; 4]%float) ].

(** Only two rows have both values. *)
Definition two_valid : DataFrame :=
  [ ("x", FloatCol [1; nan; 3; 4]%float);
    ("y", FloatCol [2; 4; nan; 7]%float) ].

(** A text column next to a numeric one, as read from a file. *)
Definition mixed : DataFrame :=
  [ ("x", FloatCol [1; nan; 3; 4]%float);
    ("y", ObjectCol [ONum 2%float; ONum 4%float; OStr "n/a"; OStr "7"]) ].

(** One numeric column: both select boxes offer only it. *)
Definition single : DataFrame :=
  [ ("score", FloatCol [1; 2; 3; 4; 5]%float) ].

End Sample.

(** ** The rest of the page (lines 96-166 and 274-275)

    A run of the script is a function of what the widgets return. *)

(** [str.lower()], on the ASCII letters; other characters are left as
    they are (none of them has a character of ".csv" as lowercase). *)
Definition lower_char (c : Ascii.ascii) : Ascii.ascii :=
  let n := Ascii.nat_of_ascii c in
  if (65 <=? n)%nat && (n <=? 90)%nat then Ascii.ascii_of_nat (n + 32)
  else c.

Fixpoint lower (s : string) : string :=
  match s with
  | EmptyString => EmptyString
  | String c s' => String (lower_char c) (lower s')
  end.

(** [s.endswith(suffix)] *)
Fixpoint endswith (s suffix : string) : bool :=
  if String.eqb s suffix then true
  else match s with
       | EmptyString => false
       | String _ s' => endswith s' suffix
       end.

(** The entries of [LANG] read outside the handler. *)
Inductive page_key :=
  | pk_title | pk_desc | pk_upload | pk_preview | pk_desc_stat
  | pk_select_numeric | pk_select_x | pk_select_y | pk_analyze | pk_info
  | pk_warn_no_numeric | pk_convert_hint | pk_convert_cols
  | pk_apply_convert.

Definition PAGE_LANG (l : lang) (k : page_key) : string :=
  match l, k with
  | id_lang, pk_title => "📊 Aplikasi Analisis Data Survei"
  | id_lang, pk_desc =>
      "Analisis deskriptif dan asosiasi (korelasi). Uji normalitas digunakan untuk memilih Pearson atau Spearman."
  | id_lang, pk_upload => "Upload file dataset (CSV atau Excel .xlsx)"
  | id_lang, pk_preview => "Pratinjau Data"
  | id_lang, pk_desc_stat => "Analisis Deskriptif (Numerik)"
  | id_lang, pk_select_numeric =>
      "Pilih kolom numerik (untuk statistik deskriptif)"
  | id_lang, pk_select_x => "Pilih Variabel X"
  | id_lang, pk_select_y => "Pilih Variabel Y"
  | id_lang, pk_analyze => "Jalankan Analisis Asosiasi"
  | id_lang, pk_info => "Silakan upload file untuk memulai."
  | id_lang, pk_warn_no_numeric =>
      "Tidak ada kolom numerik terdeteksi. Coba ubah kolom ke angka atau gunakan fitur konversi."
  | id_lang, pk_convert_hint =>
      "Coba konversi kolom bertipe teks ke numerik (opsional)."
  | id_lang, pk_convert_cols =>
      "Pilih kolom yang ingin dicoba dikonversi ke numerik"
  | id_lang, pk_apply_convert => "Terapkan konversi"
  | en_lang, pk_title => "📊 Survey Data Analysis App"
  | en_lang, pk_desc =>
      "Descriptive and association analysis (correlation). Normality testing helps choose Pearson or Spearman."
  | en_lang, pk_upload => "Upload dataset file (CSV or Excel .xlsx)"
  | en_lang, pk_preview => "Data Preview"
  | en_lang, pk_desc_stat => "Descriptive Analysis (Numeric)"
  | en_lang, pk_select_numeric =>
      "Select numeric columns (for descriptive statistics)"
  | en_lang, pk_select_x => "Select Variable X"
  | en_lang, pk_select_y => "Select Variable Y"
  | en_lang, pk_analyze => "Run Association Analysis"
  | en_lang, pk_info => "Please upload a file to start."
  | en_lang, pk_warn_no_numeric =>
      "No numeric columns detected. Try converting text columns to numeric."
  | en_lang, pk_convert_hint =>
      "Try converting text columns to numeric (optional)."
  | en_lang, pk_convert_cols => "Select columns to attempt numeric conversion"
  | en_lang, pk_apply_convert => "Apply conversion"
  end.

(** What the page renders outside the handler; [in_handler] wraps what
    the handler renders. *)
Inductive page_event :=
  | sidebar_title (body : string)
  | sidebar_radio (label : string) (options : list string)
  | st_title (body : string)
  | page_write (body : string)
  | st_file_uploader (label : string) (types : list string)
  | page_subheader (body : string)
  | st_dataframe (d : DataFrame)
  | st_caption (body : string)
  | st_multiselect (label : string) (options default : list string)
  | st_button (label : string)
  | st_success (body : string)
  | st_warning (body : string)
  | st_describe (d : DataFrame)
  | st_selectbox (label : string) (options : list string) (index : nat)
  | st_info (body : string)
  | in_handler (e : event).

(** [s.head()]: the first five rows. *)
Definition series_head (s : Series) : Series :=
  match s with
  | FloatCol v => FloatCol (firstn 5 v)
  | ObjectCol v => ObjectCol (firstn 5 v)
  end.

Definition head (df : DataFrame) : DataFrame :=
  map (fun p => (fst p, series_head (snd p))) df.

(** The option a select box shows, and returns, until the user picks
    another one. *)
Definition selectbox_default (options : list string) (index : nat)
  : option string :=
  nth_error options index.

(** [index=1 if len(numeric_cols) > 1 else 0] *)
Definition index_y (numeric_cols : list string) : nat :=
  if (1 <? List.length numeric_cols)%nat then 1 else 0.

(** [numeric_cols[: min(10, len(numeric_cols))]] *)
Definition default_desc_cols (numeric_cols : list string) : list string :=
  firstn (Nat.min 10 (List.length numeric_cols)) numeric_cols.

Section Page.

(** The uploaded file, its name, and the two pandas readers. *)
Variable File : Type.
Variable file_name : File -> string.
Variables read_csv read_excel : File -> exn + DataFrame.

Variable parse_float : string -> option float.
Variable shapiro : list float -> exn + (float * float).
Variables pearsonr spearmanr :
  list float -> list float -> exn + (float * float).
Variable linregress : list float -> list float -> exn + (float * float).
Variable linspace : float -> float -> nat -> list float.
Variable fmt : nat -> float -> string.

(** Lines 115-119. *)
Definition read_data (file : File) : exn + DataFrame :=
  let name := lower (file_name file) in
  if endswith name ".csv" then read_csv file else read_excel file.

(** What the widgets return in one run of the script. *)
Record Widgets := mkWidgets {
  w_lang : lang;
  w_uploaded_file : option File;
  w_cols_to_convert : list string;
  w_apply_convert : bool;
  w_desc_cols : list string;
  w_col_x : string;
  w_col_y : string;
  w_analyze : bool
}.

Variable w : Widgets.

Definition PT : page_key -> string := PAGE_LANG (w_lang w).

(** Lines 96-113. *)
Definition page_top : list page_event :=
  [ sidebar_title "🌐 Language / Bahasa";
    sidebar_radio "Select Language" ["id"; "en"];
    st_title (PT pk_title);
    page_write (PT pk_desc);
    st_file_uploader (PT pk_upload) ["xlsx"; "csv"] ].

(** Lines 127-136: the conversion tool, shown when the frame has an
    object column; the frame is replaced when the button is pressed. *)
Definition conversion_tool (df : DataFrame)
  : list page_event * (exn + DataFrame) :=
  match convert_candidates df with
  | [] => ([st_caption (PT pk_convert_hint)], inr df)
  | candidates =>
      let shown := [ st_caption (PT pk_convert_hint);
                     st_multiselect (PT pk_convert_cols) candidates [];
                     st_button (PT pk_apply_convert) ] in
      if w_apply_convert w
      then match apply_convert parse_float df (w_cols_to_convert w) with
           | inl e => (shown, inl e)
           | inr df' =>
               (shown ++
                [ st_success (match w_lang w with
                              | en_lang => "Conversion applied."
                              | id_lang => "Konversi diterapkan."
                              end);
                  st_dataframe (head df') ],
                inr df')
           end
      else (shown, inr df)
  end.

(** Lines 148-157: the descriptive table. *)
Definition descriptive (df : DataFrame) (numeric_cols : list string)
  : list page_event * (exn + unit) :=
  let shown := [ page_subheader (PT pk_desc_stat);
                 st_multiselect (PT pk_select_numeric) numeric_cols
                                (default_desc_cols numeric_cols) ] in
  match w_desc_cols w with
  | [] => (shown, inr tt)
  | desc_cols =>
      match getitem_list df desc_cols with
      | inl e => (shown, inl e)
      | inr sub => (shown ++ [st_describe sub], inr tt)
      end
  end.

(** Lines 162-166 and the handler. *)
Definition association (df : DataFrame) (numeric_cols : list string)
  : list page_event * outcome unit :=
  let shown := [ page_subheader (PT pk_select_x);
                 st_selectbox (PT pk_select_x) numeric_cols 0;
                 st_selectbox (PT pk_select_y) numeric_cols
                              (index_y numeric_cols);
                 st_button (PT pk_analyze) ] in
  if w_analyze w
  then let '(ev, o) := analyze parse_float shapiro pearsonr spearmanr
                               linregress linspace fmt (w_lang w) df
                               (w_col_x w) (w_col_y w) in
       (shown ++ map in_handler ev,
        match o with
        | Ret _ => Ret tt
        | Stopped => Stopped
        | Raised e => Raised e
        end)
  else (shown, Ret tt).

(** Lines 96-275. *)
Definition page : list page_event * outcome unit :=
  match w_uploaded_file w with
  | None => (page_top ++ [st_info (PT pk_info)], Ret tt)
  | Some file =>
      match read_data file with
      | inl e => (page_top, Raised e)
      | inr df =>
          let preview := [ page_subheader (PT pk_preview);
                           st_dataframe (head df) ] in
          match conversion_tool df with
          | (tool, inl e) => (page_top ++ preview ++ tool, Raised e)
          | (tool, inr df) =>
              match numeric_cols df with
              | [] =>
                  (page_top ++ preview ++ tool
                   ++ [st_warning (PT pk_warn_no_numeric)], Stopped)
              | numeric_cols =>
                  match descriptive df numeric_cols with
                  | (table, inl e) =>
                      (page_top ++ preview ++ tool ++ table, Raised e)
                  | (table, inr _) =>
                      let '(assoc, o) := association df numeric_cols in
                      (page_top ++ preview ++ tool ++ table ++ assoc, o)
                  end
              end
          end
      end
  end.

End Page.

(** Inputs for further cases. *)
Module Cases.

Definition pearsonr_raises (x y : list float) : exn + (float * float) :=
  inl (OtherError "ValueError").

(** Two text columns and a numeric one, as read from a file. *)
Definition survey : DataFrame :=
  [ ("age", ObjectCol [OStr "7"; OStr "n/a"; ONone; ONum 3%float]);
    ("city", ObjectCol [OStr "a"; OStr "b"; OStr "c"; OStr "d"]);
    ("score", FloatCol [1; 2; 3; 4]%float) ].

(** All text. *)
Definition text_only : DataFrame :=
  [ ("city", ObjectCol [OStr "a"; OStr "b"; OStr "c"]) ].

Definition file_name (f : string * DataFrame) : string := fst f.

Definition read_csv (f : string * DataFrame) : exn + DataFrame :=
  inr (snd f).

Definition read_excel (f : string * DataFrame) : exn + DataFrame :=
  inl (OtherError "BadZipFile").

(** Widget values: a CSV file, nothing converted, the analysis button
    pressed. *)
Definition pressed (l : lang) (df : DataFrame) (desc_cols : list string)
           (col_x col_y : string) : Widgets (string * DataFrame) :=
  mkWidgets (string * DataFrame) l (Some ("data.CSV", df)) [] false
            desc_cols col_x col_y true.

End Cases.

(** ** Order on binary64 values *)

(** A key whose lexicographic order is the order of the numbers: sign
    class, then exponent, then mantissa (both negated below zero). *)
Definition rank (f : spec_float) : Z * Z * Z :=
  match f with
  | S754_nan => (0, 0, 0)%Z
  | S754_zero _ => (0, 0, 0)%Z
  | S754_infinity true => (-2, 0, 0)%Z
  | S754_infinity false => (2, 0, 0)%Z
  | S754_finite true m e => (-1, - e, Z.neg m)%Z
  | S754_finite false m e => (1, e, Z.pos m)%Z
  end.

Definition lex_lt (p q : Z * Z * Z) : Prop :=
  let '(a1, a2, a3) := p in
  let '(b1, b2, b3) := q in
  (a1 < b1 \/ (a1 = b1 /\ (a2 < b2 \/ (a2 = b2 /\ a3 < b3))))%Z.

(** ** Facts on binary64 comparisons *)

Module FloatFacts.

Ltac rank_case :=
  split;
  [ intros E; try discriminate E; repeat split; try discriminate; lia
  | intros (N1 & N2 & L); try congruence; try reflexivity; try lia ].

Lemma SFcompare_Lt_rank (a b : spec_float) :
  SFcompare a b = Some Lt <->
  a <> S754_nan /\ b <> S754_nan /\ lex_lt (rank a) (rank b).
Proof.
  destruct a as [sa|sa| |sa ma ea], b as [sb|sb| |sb mb eb];
    try destruct sa; try destruct sb; simpl; try (rank_case; fail).
  - change (Pos.compare_cont Eq ma mb) with (Pos.compare ma mb).
    destruct (Z.compare_spec ea eb), (Pos.compare_spec ma mb); simpl;
      rank_case.
  - change (Pos.compare_cont Eq ma mb) with (Pos.compare ma mb).
    destruct (Z.compare_spec ea eb), (Pos.compare_spec ma mb); simpl;
      rank_case.
Qed.

Lemma SFcompare_Eq_rank (a b : spec_float) :
  SFcompare a b = Some Eq <->
  a <> S754_nan /\ b <> S754_nan /\ rank a = rank b.
Proof.
  destruct a as [sa|sa| |sa ma ea], b as [sb|sb| |sb mb eb];
    try destruct sa; try destruct sb; simpl;
    try (split; [ intros E; try discriminate E; repeat split; discriminate
                | intros (N1 & N2 & L); try congruence; try reflexivity ];
         fail).
  - change (Pos.compare_cont Eq ma mb) with (Pos.compare ma mb).
    destruct (Z.compare_spec ea eb), (Pos.compare_spec ma mb); simpl;
      (split; [ intros E; try discriminate E; repeat split;
                  try discriminate; subst; reflexivity
              | intros (N1 & N2 & [= L1 L2]); try reflexivity; lia ]).
  - change (Pos.compare_cont Eq ma mb) with (Pos.compare ma mb).
    destruct (Z.compare_spec ea eb), (Pos.compare_spec ma mb); simpl;
      (split; [ intros E; try discriminate E; repeat split;
                  try discriminate; subst; reflexivity
              | intros (N1 & N2 & [= L1 L2]); try reflexivity; lia ]).
Qed.

Lemma SFcompare_opp (a b : spec_float) (c : comparison) :
  SFcompare a b = Some c -> SFcompare b a = Some (CompOpp c).
Proof.
  destruct a as [sa|sa| |sa ma ea], b as [sb|sb| |sb mb eb]; simpl;
    try discriminate;
    try (destruct sa; intros [= <-]; reflexivity);
    try (destruct sb; intros [= <-]; reflexivity);
    try (intros [= <-]; reflexivity).
  - destruct sa, sb; intros [= <-]; reflexivity.
  - destruct sa, sb; try (intros [= <-]; reflexivity).
    + rewrite (Z.compare_antisym ea eb).
      destruct (ea ?= eb)%Z; simpl; intros [= <-]; try reflexivity.
      rewrite (Pos.compare_cont_antisym _ _ Eq). simpl.
      destruct (Pos.compare_cont Eq ma mb); reflexivity.
    + rewrite (Z.compare_antisym ea eb).
      destruct (ea ?= eb)%Z; simpl; intros [= <-]; try reflexivity.
      rewrite (Pos.compare_cont_antisym _ _ Eq). simpl.
      destruct (Pos.compare_cont Eq ma mb); reflexivity.
Qed.

Lemma SFcompare_refl (a : spec_float) :
  a <> S754_nan -> SFcompare a a = Some Eq.
Proof.
  destruct a as [sa|sa| |sa ma ea]; simpl; try congruence.
  - destruct sa; reflexivity.
  - intros _. destruct sa; rewrite Z.compare_refl, Pos.compare_cont_refl;
      reflexivity.
Qed.

Lemma SFcompare_None (a b : spec_float) :
  SFcompare a b = None <-> a = S754_nan \/ b = S754_nan.
Proof.
  split.
  - destruct a as [sa|sa| |sa ma ea], b as [sb|sb| |sb mb eb]; simpl;
      intros H; try discriminate H; auto.
  - intros [-> | ->]; [reflexivity | destruct a; reflexivity].
Qed.

(** [np.isnan]: a float is NaN exactly when it differs from itself. *)
Lemma is_nan_spec (x : float) : is_nan x = true <-> Prim2SF x = S754_nan.
Proof.
  unfold is_nan. rewrite FloatAxioms.eqb_spec. unfold SFeqb. split.
  - intros H. destruct (Prim2SF x) eqn:E; try reflexivity;
      rewrite SFcompare_refl in H by discriminate; discriminate H.
  - intros ->. reflexivity.
Qed.

Lemma not_nan_spec (x : float) : is_nan x = false <-> Prim2SF x <> S754_nan.
Proof.
  rewrite <- is_nan_spec. destruct (is_nan x); split; congruence.
Qed.

Lemma is_nan_eq (x : float) : is_nan x = true -> x = nan.
Proof.
  intros H. apply is_nan_spec in H. apply Prim2SF_inj. rewrite H. reflexivity.
Qed.

Lemma compare_total (a b : float) :
  is_nan a = false -> is_nan b = false ->
  exists c, SFcompare (Prim2SF a) (Prim2SF b) = Some c.
Proof.
  intros Ha Hb. apply not_nan_spec in Ha. apply not_nan_spec in Hb.
  destruct (SFcompare (Prim2SF a) (Prim2SF b)) as [c|] eqn:E.
  - now exists c.
  - apply SFcompare_None in E. tauto.
Qed.

Lemma ltb_not_nan (a b : float) :
  (a <? b)%float = true -> is_nan a = false /\ is_nan b = false.
Proof.
  rewrite ltb_spec. unfold SFltb. intros H.
  split; apply not_nan_spec; intros E; rewrite E in H; simpl in H;
    try discriminate H.
  destruct (Prim2SF a); discriminate H.
Qed.

Lemma leb_not_nan (a b : float) :
  (a <=? b)%float = true -> is_nan a = false /\ is_nan b = false.
Proof.
  rewrite leb_spec. unfold SFleb. intros H.
  split; apply not_nan_spec; intros E; rewrite E in H; simpl in H;
    try discriminate H.
  destruct (Prim2SF a); discriminate H.
Qed.

(** On numbers, [not (a < b)] is [b <= a]. *)
Lemma ltb_false_leb (a b : float) :
  is_nan a = false -> is_nan b = false ->
  (a <? b)%float = false -> (b <=? a)%float = true.
Proof.
  intros Ha Hb. destruct (compare_total a b Ha Hb) as [c Hc].
  rewrite ltb_spec, leb_spec. unfold SFltb, SFleb.
  rewrite Hc, (SFcompare_opp _ _ _ Hc). destruct c; simpl; congruence.
Qed.

Lemma ltb_true_leb (a b : float) :
  (a <? b)%float = true -> (b <=? a)%float = false.
Proof.
  rewrite ltb_spec, leb_spec. unfold SFltb, SFleb.
  destruct (SFcompare (Prim2SF a) (Prim2SF b)) as [c|] eqn:Hc;
    try discriminate.
  rewrite (SFcompare_opp _ _ _ Hc). destruct c; simpl; congruence.
Qed.

Lemma leb_true_ltb (a b : float) :
  (b <=? a)%float = true -> (a <? b)%float = false.
Proof.
  intros H. destruct (a <? b)%float eqn:E; [|reflexivity].
  apply ltb_true_leb in E. congruence.
Qed.

Lemma abs_is_nan (x : float) : is_nan (abs x) = is_nan x.
Proof.
  destruct (is_nan x) eqn:E.
  - apply is_nan_eq in E. subst x. reflexivity.
  - apply not_nan_spec. rewrite abs_spec. apply not_nan_spec in E.
    destruct (Prim2SF x); simpl; congruence.
Qed.

Lemma abs_nonneg (x : float) :
  is_nan x = false -> (0 <=? abs x)%float = true.
Proof.
  intros H. apply not_nan_spec in H.
  rewrite leb_spec, abs_spec. unfold SFleb.
  destruct (Prim2SF x); simpl; congruence.
Qed.

Lemma ltb_rank (a b : float) :
  (a <? b)%float = true <->
  is_nan a = false /\ is_nan b = false /\
  lex_lt (rank (Prim2SF a)) (rank (Prim2SF b)).
Proof.
  rewrite ltb_spec, !not_nan_spec, <- SFcompare_Lt_rank. unfold SFltb.
  destruct (SFcompare (Prim2SF a) (Prim2SF b)) as [[| |]|];
    split; congruence.
Qed.

Lemma leb_rank (a b : float) :
  (a <=? b)%float = true <->
  is_nan a = false /\ is_nan b = false /\
  (lex_lt (rank (Prim2SF a)) (rank (Prim2SF b)) \/
   rank (Prim2SF a) = rank (Prim2SF b)).
Proof.
  rewrite leb_spec, !not_nan_spec. unfold SFleb.
  pose proof (SFcompare_Lt_rank (Prim2SF a) (Prim2SF b)) as HL.
  pose proof (SFcompare_Eq_rank (Prim2SF a) (Prim2SF b)) as HE.
  destruct (SFcompare (Prim2SF a) (Prim2SF b)) as [[| |]|]; split;
    try discriminate; try reflexivity.
  - intros _. destruct HE as [HE _]. specialize (HE eq_refl). tauto.
  - intros _. destruct HL as [HL _]. specialize (HL eq_refl). tauto.
  - intros (Na & Nb & [H | H]).
    + destruct HL as [_ HL]. discriminate HL. tauto.
    + destruct HE as [_ HE]. discriminate HE. tauto.
  - intros (Na & Nb & [H | H]).
    + destruct HL as [_ HL]. discriminate HL. tauto.
    + destruct HE as [_ HE]. discriminate HE. tauto.
Qed.

Lemma lex_lt_trans (p q r : Z * Z * Z) :
  lex_lt p q -> lex_lt q r -> lex_lt p r.
Proof.
  destruct p as [[p1 p2] p3], q as [[q1 q2] q3], r as [[r1 r2] r3].
  unfold lex_lt. lia.
Qed.

Lemma ltb_leb_trans (a b c : float) :
  (a <? b)%float = true -> (b <=? c)%float = true -> (a <? c)%float = true.
Proof.
  rewrite !ltb_rank, leb_rank.
  intros (Na & Nb & H1) (_ & Nc & [H2 | H2]); repeat split; auto.
  - eapply lex_lt_trans; eassumption.
  - now rewrite <- H2.
Qed.

(** [x <= y] in terms of [y < x] and the NaN tests. *)
Lemma leb_as_ltb (x y : float) :
  (x <=? y)%float
  = negb (y <? x)%float && negb (is_nan x) && negb (is_nan y).
Proof.
  destruct (x <=? y)%float eqn:E.
  - rewrite (leb_true_ltb _ _ E).
    destruct (leb_not_nan _ _ E) as [-> ->]. reflexivity.
  - destruct (is_nan x) eqn:Hx; [now rewrite andb_false_r|].
    destruct (is_nan y) eqn:Hy; [now rewrite andb_false_r|].
    destruct (y <? x)%float eqn:L; [reflexivity|].
    rewrite (ltb_false_leb _ _ Hy Hx L) in E. discriminate E.
Qed.

End FloatFacts.

(** ** Selection and masks *)

Section FrameFacts.

Lemma select_label (df : DataFrame) (c : string) (p : string * Series) :
  In p (select df c) -> fst p = c.
Proof.
  unfold select, has_label. intros H. apply filter_In in H.
  destruct H as [_ H]. now apply String.eqb_eq.
Qed.

Lemma select_app (d1 d2 : DataFrame) (c : string) :
  select (d1 ++ d2) c = select d1 c ++ select d2 c.
Proof. apply filter_app. Qed.

Lemma select_same (df : DataFrame) (c : string) :
  select (select df c) c = select df c.
Proof.
  unfold select. induction df as [|p df IH]; simpl; [reflexivity|].
  destruct (has_label c p) eqn:E; simpl; rewrite ?E, IH; reflexivity.
Qed.

Lemma select_other (df : DataFrame) (c c' : string) :
  c <> c' -> select (select df c) c' = [].
Proof.
  intros Hne. unfold select. induction df as [|p df IH]; simpl; [reflexivity|].
  destruct (has_label c p) eqn:E; simpl; [|exact IH].
  unfold has_label in *. apply String.eqb_eq in E.
  destruct (String.eqb (fst p) c') eqn:E'; [|exact IH].
  apply String.eqb_eq in E'. congruence.
Qed.

(** Replacing the columns labelled [c] leaves columns of another label
    alone. *)
Lemma relabel_other (l : DataFrame) (c c' : string) (s : Series) :
  c <> c' ->
  (forall p, In p l -> fst p = c') ->
  map (fun p : string * Series =>
         if String.eqb (fst p) c then (fst p, s) else p) l = l.
Proof.
  intros Hne Hl. induction l as [|p l IH]; simpl; [reflexivity|].
  rewrite IH by (intros; apply Hl; simpl; auto).
  rewrite (Hl p (or_introl eq_refl)).
  assert (String.eqb c' c = false) as ->
    by (apply String.eqb_neq; congruence).
  reflexivity.
Qed.

Lemma select_single_eq (df : DataFrame) (c c' : string) (s : Series) :
  select df c = [(c', s)] -> c' = c.
Proof.
  intros H. apply (select_label df c (c', s)). rewrite H. now left.
Qed.

(** Writing back the column that is already there changes nothing. *)
Lemma setitem_same (df : DataFrame) (c : string) (s : Series) :
  select df c = [(c, s)] -> setitem df c s = df.
Proof.
  intros H. unfold setitem.
  assert (Hin : forall p, In p df -> has_label c p = true -> p = (c, s)).
  { intros p Hp Hl.
    assert (In p (select df c)) by (apply filter_In; auto).
    rewrite H in H0. destruct H0 as [<- | []]. reflexivity. }
  assert (Hex : existsb (has_label c) df = true).
  { apply existsb_exists. exists (c, s). split.
    - assert (In (c, s) (select df c)) by (rewrite H; now left).
      apply filter_In in H0. tauto.
    - unfold has_label. apply String.eqb_refl. }
  rewrite Hex. clear H Hex.
  induction df as [|p df IH]; simpl; [reflexivity|].
  rewrite IH by (intros; apply Hin; simpl; auto). f_equal.
  destruct (has_label c p) eqn:E; [|reflexivity].
  rewrite (Hin p (or_introl eq_refl) E). reflexivity.
Qed.

(** With the all-true base mask, the two kept columns are the two
    projections of the complete rows. *)
Lemma keep_complete (fx fy : list float) :
  List.length fx = List.length fy ->
  let mask := and_masks (map (fun f => negb (is_nan f)) fx)
                (and_masks (map (fun f => negb (is_nan f)) fy)
                           (repeat true (List.length fx))) in
  keep mask fx = map fst (filter complete_row (combine fx fy)) /\
  keep mask fy = map snd (filter complete_row (combine fx fy)).
Proof.
  revert fy. induction fx as [|a fx IH]; intros [|b fy] Hlen;
    simpl in *; try discriminate; [split; reflexivity|].
  injection Hlen as Hlen. destruct (IH fy Hlen) as [IHx IHy].
  rewrite andb_true_r.
  replace (complete_row (a, b)) with (negb (is_nan a) && negb (is_nan b))
    by reflexivity.
  destruct (negb (is_nan a) && negb (is_nan b)); simpl;
    rewrite IHx, IHy; split; reflexivity.
Qed.

(** No kept value is NaN, whatever the lengths. *)
Lemma keep_notnan_l (fx : list float) (m : list bool) (v : float) :
  In v (keep (and_masks (map (fun f => negb (is_nan f)) fx) m) fx) ->
  is_nan v = false.
Proof.
  revert m. induction fx as [|a fx IH]; intros [|b m]; simpl;
    try contradiction.
  destruct (is_nan a) eqn:Ea; simpl.
  - apply IH.
  - destruct b; simpl; [intros [<- | H]; [exact Ea | now apply IH in H]|].
    apply IH.
Qed.

Lemma keep_notnan_r (fx fy : list float) (m : list bool) (v : float) :
  In v (keep (and_masks (map (fun f => negb (is_nan f)) fx)
                (and_masks (map (fun f => negb (is_nan f)) fy) m)) fy) ->
  is_nan v = false.
Proof.
  revert fx m. induction fy as [|b fy IH]; intros [|a fx] [|c m]; simpl;
    try contradiction.
  destruct (is_nan b) eqn:Eb; simpl.
  - rewrite andb_false_r. apply IH.
  - destruct (negb (is_nan a) && c); simpl;
      [intros [<- | H]; [exact Eb | now apply IH in H]|].
    apply IH.
Qed.

Lemma filter_subseq {A : Type} (f : A -> bool) (l : list A) :
  subseq (filter f l) l.
Proof.
  induction l as [|a l IH]; simpl; [constructor|].
  destruct (f a); now constructor.
Qed.

Lemma filter_length_split {A : Type} (f : A -> bool) (l : list A) :
  List.length (filter f l)
  = List.length l - List.length (filter (fun a => negb (f a)) l).
Proof.
  pose proof (filter_length f l) as H. lia.
Qed.

End FrameFacts.

(** ** The cleaning step *)

Section CleanFacts.

Variable parse_float : string -> option float.

Lemma to_numeric_series_coerced (s : Series) :
  to_numeric_series parse_float s = FloatCol (coerced parse_float s).
Proof. destruct s; reflexivity. Qed.

Lemma coerced_length (s : Series) :
  List.length (coerced parse_float s) = series_len s.
Proof. destruct s; simpl; [reflexivity | apply length_map]. Qed.

Lemma convert_column_inv (data data' : DataFrame) (c : string) :
  convert_column parse_float data c = inr data' ->
  exists s, select data c = [(c, s)] /\
            data' = setitem data c (FloatCol (coerced parse_float s)).
Proof.
  unfold convert_column, getitem.
  destruct (select data c) as [|[l s] [|q r]] eqn:E; simpl;
    try discriminate.
  intros [= <-]. exists s.
  rewrite (select_single_eq _ _ _ _ E), to_numeric_series_coerced. auto.
Qed.

Lemma convert_column_single (data : DataFrame) (c : string) (s : Series) :
  select data c = [(c, s)] ->
  convert_column parse_float data c
  = inr (setitem data c (FloatCol (coerced parse_float s))).
Proof.
  intros E. unfold convert_column, getitem. rewrite E. simpl.
  now rewrite to_numeric_series_coerced.
Qed.

Lemma clean_distinct (df : DataFrame) (col_x col_y : string)
      (sx sy : Series) :
  select df col_x = [(col_x, sx)] ->
  select df col_y = [(col_y, sy)] ->
  col_x <> col_y ->
  clean parse_float df col_x col_y
  = inr (dropna (coerced_pair parse_float col_x col_y sx sy)).
Proof.
  intros Hx Hy Hne. unfold clean. simpl getitem_list.
  rewrite Hx, Hy. cbn [bind_exn app].
  assert (Exy : String.eqb col_x col_y = false) by now apply String.eqb_neq.
  assert (Eyx : String.eqb col_y col_x = false)
    by (apply String.eqb_neq; congruence).
  rewrite (convert_column_single _ col_x sx)
    by (unfold select, has_label; simpl;
        now rewrite String.eqb_refl, Eyx).
  cbn [bind_exn]. unfold setitem, has_label. simpl.
  rewrite String.eqb_refl, Eyx. simpl.
  rewrite (convert_column_single _ col_y sy)
    by (unfold select, has_label; simpl;
        now rewrite String.eqb_refl, Exy).
  cbn [bind_exn]. unfold setitem, has_label. simpl.
  rewrite String.eqb_refl, Exy. simpl. reflexivity.
Qed.

(** Cleaning succeeds only on two different labels, each naming exactly
    one column. *)
Lemma clean_inv (df : DataFrame) (col_x col_y : string) (data : DataFrame) :
  clean parse_float df col_x col_y = inr data ->
  exists sx sy,
    select df col_x = [(col_x, sx)] /\
    select df col_y = [(col_y, sy)] /\
    col_x <> col_y.
Proof.
  unfold clean. simpl getitem_list.
  destruct (select df col_x) as [|px rx] eqn:Ex; [discriminate|].
  destruct (select df col_y) as [|py ry] eqn:Ey; [simpl; discriminate|].
  cbn [bind_exn]. simpl app. rewrite app_nil_r.
  change (px :: rx ++ py :: ry) with ((px :: rx) ++ (py :: ry)).
  rewrite <- Ex, <- Ey.
  destruct (convert_column parse_float
              (select df col_x ++ select df col_y) col_x)
    as [e|d1] eqn:E1; [simpl; discriminate|].
  cbn [bind_exn].
  destruct (convert_column parse_float d1 col_y) as [e|d2] eqn:E2;
    [simpl; discriminate|].
  intros _.
  apply convert_column_inv in E1. destruct E1 as (s1 & S1 & ->).
  rewrite select_app, select_same in S1.
  destruct (String.eqb_spec col_x col_y) as [Heq | Hne].
  { subst col_y. rewrite select_same, Ex in S1. simpl in S1.
    injection S1 as _ S1. destruct rx; discriminate S1. }
  rewrite (select_other df col_y col_x) in S1 by congruence.
  rewrite app_nil_r in S1.
  apply convert_column_inv in E2. destruct E2 as (s2 & S2 & _).
  rewrite S1 in S2. unfold setitem, has_label in S2. simpl in S2.
  rewrite String.eqb_refl in S2. simpl in S2.
  assert (Exy : String.eqb col_x col_y = false) by now apply String.eqb_neq.
  unfold select at 1 in S2. simpl in S2. unfold has_label at 1 in S2.
  simpl in S2. rewrite Exy in S2.
  rewrite (relabel_other (select df col_y) col_x col_y) in S2
    by (congruence || apply select_label).
  fold (select (select df col_y) col_y) in S2.
  rewrite select_same in S2.
  exists s1, s2. auto.
Qed.

Lemma dropna_coerced_pair (col_x col_y : string) (sx sy : Series) :
  series_len sx = series_len sy ->
  dropna (coerced_pair parse_float col_x col_y sx sy)
  = [ (col_x, FloatCol (map fst (CleanedPair parse_float sx sy)));
      (col_y, FloatCol (map snd (CleanedPair parse_float sx sy))) ].
Proof.
  intros Hlen. unfold dropna, row_mask, coerced_pair. simpl.
  assert (H : List.length (coerced parse_float sx)
              = List.length (coerced parse_float sy))
    by now rewrite !coerced_length.
  destruct (keep_complete _ _ H) as [Hx Hy].
  unfold CleanedPair, rows. now rewrite Hx, Hy.
Qed.

(** Whatever the lengths, the result of a successful cleaning is two
    float columns under the two labels, without NaN. *)
Lemma clean_shape (df : DataFrame) (col_x col_y : string)
      (data : DataFrame) :
  clean parse_float df col_x col_y = inr data ->
  exists x y,
    data = [(col_x, FloatCol x); (col_y, FloatCol y)] /\
    col_x <> col_y /\
    (forall v, In v x -> is_nan v = false) /\
    (forall v, In v y -> is_nan v = false).
Proof.
  intros H. destruct (clean_inv _ _ _ _ H) as (sx & sy & Hx & Hy & Hne).
  rewrite (clean_distinct _ _ _ _ _ Hx Hy Hne) in H. injection H as <-.
  unfold dropna, row_mask, coerced_pair. simpl.
  eexists _, _. split; [reflexivity|]. split; [exact Hne|]. split.
  - intros v. apply keep_notnan_l.
  - intros v. apply keep_notnan_r.
Qed.

End CleanFacts.

(** ** Direction and strength *)

Section InterpretationFacts.

Import FloatFacts.

Lemma ltb_is_number (a c : float) :
  (a <? c)%float = true -> is_nan a = false.
Proof. intros H. now destruct (ltb_not_nan _ _ H). Qed.

Lemma abs_leb_zero (x : float) : (0 <=? abs x)%float = negb (is_nan x).
Proof.
  destruct (is_nan x) eqn:E.
  - apply is_nan_eq in E. subst x. reflexivity.
  - now apply abs_nonneg.
Qed.

Lemma labels_distinct (l : lang) :
  LANG l k_very_weak <> LANG l k_weak /\
  LANG l k_very_weak <> LANG l k_moderate /\
  LANG l k_very_weak <> LANG l k_strong /\
  LANG l k_weak <> LANG l k_moderate /\
  LANG l k_weak <> LANG l k_strong /\
  LANG l k_moderate <> LANG l k_strong /\
  LANG l k_positive <> LANG l k_negative.
Proof. destruct l; simpl; repeat split; discriminate. Qed.

(** C5: the direction is "positive" exactly when the coefficient is
    strictly greater than 0 and "negative" in every other case; a
    coefficient of exactly 0 (of either sign) is "negative". *)
Theorem direction_sign (l : lang) (corr : float) :
  (direction (LANG l) corr = LANG l k_positive <-> (0 <? corr)%float = true)
  /\ (direction (LANG l) corr = LANG l k_negative
      <-> (0 <? corr)%float = false)
  /\ direction (LANG l) 0 = LANG l k_negative
  /\ direction (LANG l) (-0) = LANG l k_negative.
Proof.
  pose proof (labels_distinct l) as (_ & _ & _ & _ & _ & _ & D).
  unfold direction. repeat split; try reflexivity;
    destruct (0 <? corr)%float; congruence.
Qed.

(** C4: the strength is read off |r| by lower-inclusive bins:
    [0, 0.3) very weak, [0.3, 0.5) weak, [0.5, 0.7) moderate, and from 0.7
    on (so on [0.7, 1.0]) strong; |r| = 0.3 is weak, 0.5 moderate, 0.7
    strong. *)
Theorem strength_bins (l : lang) (corr : float) :
  let T := LANG l in
  let a := abs corr in
  (strength T corr = T k_very_weak
   <-> (0 <=? a)%float && (a <? 0.3)%float = true)
  /\ (strength T corr = T k_weak
      <-> (0.3 <=? a)%float && (a <? 0.5)%float = true)
  /\ (strength T corr = T k_moderate
      <-> (0.5 <=? a)%float && (a <? 0.7)%float = true)
  /\ (strength T corr = T k_strong
      <-> (0.7 <=? a)%float = true \/ is_nan corr = true)
  /\ ((0.7 <=? a)%float && (a <=? 1.0)%float = true
      -> strength T corr = T k_strong)
  /\ strength T 0.3 = T k_weak /\ strength T (-0.3) = T k_weak
  /\ strength T 0.5 = T k_moderate /\ strength T (-0.5) = T k_moderate
  /\ strength T 0.7 = T k_strong /\ strength T (-0.7) = T k_strong.
Proof.
  intros T a.
  pose proof (labels_distinct l) as (D1 & D2 & D3 & D4 & D5 & D6 & _).
  fold T in D1, D2, D3, D4, D5, D6.
  assert (F1 : (a <? 0.3)%float = true -> (a <? 0.5)%float = true)
    by (intros H; now apply (ltb_leb_trans a 0.3 0.5)).
  assert (F2 : (a <? 0.5)%float = true -> (a <? 0.7)%float = true)
    by (intros H; now apply (ltb_leb_trans a 0.5 0.7)).
  pose proof (ltb_is_number a 0.7) as N.
  pose proof (abs_is_nan corr) as Hn. fold a in Hn.
  unfold a at 1. rewrite abs_leb_zero, <- Hn.
  rewrite !(leb_as_ltb _ a). simpl negb. rewrite !andb_true_r.
  unfold strength. fold a.
  destruct (a <? 0.3)%float, (a <? 0.5)%float, (a <? 0.7)%float,
    (is_nan a); simpl;
    try (discriminate (F1 eq_refl)); try (discriminate (F2 eq_refl));
    try (discriminate (N eq_refl));
    repeat split; intros; try reflexivity; try congruence;
    intuition congruence.
Qed.

(** Helper for the NaN case. *)
Lemma nan_interpretation (T : key -> string) (corr : float) :
  is_nan corr = true ->
  direction T corr = T k_negative /\ strength T corr = T k_strong.
Proof.
  intros H. apply is_nan_eq in H. subst corr. split; reflexivity.
Qed.

End InterpretationFacts.

(** ** The handler *)

Section HandlerFacts.

Import FloatFacts.

Variable parse_float : string -> option float.
Variable shapiro : list float -> exn + (float * float).
Variables pearsonr spearmanr :
  list float -> list float -> exn + (float * float).
Variable linregress : list float -> list float -> exn + (float * float).
Variable linspace : float -> float -> nat -> list float.
Variable fmt : nat -> float -> string.
Variable lang_sel : lang.

Local Notation run_cleaned :=
  (analyze_cleaned shapiro pearsonr spearmanr linregress linspace fmt
                   lang_sel).
Local Notation run :=
  (analyze parse_float shapiro pearsonr spearmanr linregress linspace fmt
           lang_sel).
Local Notation corr_of := (correlate pearsonr spearmanr).
Local Notation p_of := (safe_shapiro shapiro).

(** How the part after the length check ends. *)
Lemma analyze_cleaned_snd (col_x col_y : string) (x y : list float) :
  snd (run_cleaned col_x col_y x y)
  = match corr_of (p_of x) (p_of y) x y with
    | inl e => Raised e
    | inr (method, (corr, pval)) =>
        Ret (mkResult (p_of x) (p_of y) method corr pval
                      (direction (T lang_sel) corr)
                      (strength (T lang_sel) corr)
                      (match linregress x y with
                       | inr lr => Some lr
                       | inl _ => None
                       end))
    end.
Proof.
  unfold analyze_cleaned, regression_line.
  destruct (corr_of (p_of x) (p_of y) x y) as [e | [method [corr pval]]];
    simpl; [reflexivity|].
  destruct (linregress x y) as [e | [slope intercept]]; reflexivity.
Qed.

Lemma getitem_pair (col_x col_y : string) (x y : list float) :
  col_x <> col_y ->
  bind_exn (getitem [(col_x, FloatCol x); (col_y, FloatCol y)] col_x) values
  = inr x /\
  bind_exn (getitem [(col_x, FloatCol x); (col_y, FloatCol y)] col_y) values
  = inr y.
Proof.
  intros Hne. unfold getitem, select, has_label. simpl.
  rewrite !String.eqb_refl.
  assert (String.eqb col_x col_y = false) as -> by now apply String.eqb_neq.
  assert (String.eqb col_y col_x = false) as ->
    by (apply String.eqb_neq; congruence).
  split; reflexivity.
Qed.

(** Past the length check the handler runs lines 176-272 on the two
    cleaned columns. *)
Lemma analyze_reaches (df : DataFrame) (col_x col_y : string)
      (x y : list float) :
  clean parse_float df col_x col_y
  = inr [(col_x, FloatCol x); (col_y, FloatCol y)] ->
  3 <= List.length x ->
  run df col_x col_y = run_cleaned col_x col_y x y.
Proof.
  intros H Hlen.
  destruct (clean_shape _ _ _ _ _ H) as (x' & y' & _ & Hne & _).
  destruct (getitem_pair col_x col_y x y Hne) as [Gx Gy].
  unfold analyze. rewrite H. cbn [lift bind nrows series_len].
  destruct (Nat.ltb_spec (List.length x) 3) as [Hlt | _]; [lia|].
  rewrite Gx. cbn [lift bind]. rewrite Gy. cbn [lift bind].
  destruct (run_cleaned col_x col_y x y) as [ev o]. reflexivity.
Qed.

(** A run that completes went through the cleaned columns. *)
Lemma analyze_completes (df : DataFrame) (col_x col_y : string)
      (ev : list event) (res : Result) :
  run df col_x col_y = (ev, Ret res) ->
  exists x y,
    clean parse_float df col_x col_y
    = inr [(col_x, FloatCol x); (col_y, FloatCol y)] /\
    3 <= List.length x /\
    run_cleaned col_x col_y x y = (ev, Ret res).
Proof.
  intros H.
  destruct (clean parse_float df col_x col_y) as [e | data] eqn:Hc.
  - unfold analyze in H. rewrite Hc in H. discriminate H.
  - destruct (clean_shape _ _ _ _ _ Hc) as (x & y & -> & _).
    exists x, y. split; [reflexivity|].
    destruct (Nat.ltb_spec (List.length x) 3) as [Hlt | Hge].
    + unfold analyze in H. rewrite Hc in H.
      cbn [lift bind nrows series_len] in H.
      destruct (Nat.ltb_spec (List.length x) 3) as [_ | Hge]; [|lia].
      discriminate H.
    + split; [exact Hge|].
      now rewrite <- (analyze_reaches _ _ _ _ _ Hc Hge).
Qed.

(** What a completed run recorded. *)
Lemma analyze_result (df : DataFrame) (col_x col_y : string)
      (ev : list event) (res : Result) :
  run df col_x col_y = (ev, Ret res) ->
  res_direction res = direction (T lang_sel) (res_corr res) /\
  res_strength res = strength (T lang_sel) (res_corr res).
Proof.
  intros H. destruct (analyze_completes _ _ _ _ _ H) as (x & y & _ & _ & E).
  pose proof (analyze_cleaned_snd col_x col_y x y) as S.
  rewrite E in S. simpl in S.
  destruct (corr_of (p_of x) (p_of y) x y) as [e | [method [corr pval]]];
    [discriminate S|].
  injection S as ->. split; reflexivity.
Qed.

Lemma use_pearson_true (p_x p_y : float) :
  use_pearson p_x p_y = true <->
  is_nan p_x = false /\ is_nan p_y = false /\
  (0.05 <? p_x)%float = true /\ (0.05 <? p_y)%float = true.
Proof.
  unfold use_pearson.
  destruct (is_nan p_x), (is_nan p_y), (0.05 <? p_x)%float,
    (0.05 <? p_y)%float; simpl; intuition congruence.
Qed.

Lemma use_pearson_false (p_x p_y : float) :
  use_pearson p_x p_y = false <->
  is_nan p_x = true \/ is_nan p_y = true \/
  (p_x <=? 0.05)%float = true \/ (p_y <=? 0.05)%float = true.
Proof.
  unfold use_pearson. rewrite !(leb_as_ltb _ 0.05). simpl negb.
  rewrite !andb_true_r.
  destruct (is_nan p_x), (is_nan p_y), (0.05 <? p_x)%float,
    (0.05 <? p_y)%float; simpl; intuition congruence.
Qed.

(** The run ends with the outcome of the routine that [use_pearson]
    picks. *)
Lemma analyze_ends_with (df : DataFrame) (col_x col_y : string)
      (x y : list float) :
  clean parse_float df col_x col_y
  = inr [(col_x, FloatCol x); (col_y, FloatCol y)] ->
  3 <= List.length x ->
  (use_pearson (p_of x) (p_of y) = true ->
   ends_with (run df col_x col_y) "Pearson" (pearsonr x y))
  /\ (use_pearson (p_of x) (p_of y) = false ->
      ends_with (run df col_x col_y) "Spearman" (spearmanr x y)).
Proof.
  intros Hc Hlen.
  rewrite (analyze_reaches _ _ _ _ _ Hc Hlen).
  pose proof (analyze_cleaned_snd col_x col_y x y) as S.
  unfold correlate in S.
  split; intros U; rewrite U in S; unfold ends_with.
  - destruct (pearsonr x y) as [e | [corr pval]]; simpl in S;
      [exact S|].
    eexists. split; [exact S|]. repeat split.
  - destruct (spearmanr x y) as [e | [corr pval]]; simpl in S;
      [exact S|].
    eexists. split; [exact S|]. repeat split.
Qed.

(** C1: on a cleaned pair of at least 3 rows the handler takes Pearson
    exactly when both normality p-values are numbers (not NaN, the "not
    computable" marker) and both are strictly above 0.05; in every other
    case (a p-value missing, or at most 0.05) it takes Spearman.  The run
    then ends with the chosen routine's outcome under that method's name. *)
Theorem method_selection (df : DataFrame) (col_x col_y : string)
        (x y : list float) :
  clean parse_float df col_x col_y
  = inr [(col_x, FloatCol x); (col_y, FloatCol y)] ->
  3 <= List.length x ->
  let p_x := p_of x in
  let p_y := p_of y in
  (use_pearson p_x p_y = true <->
   is_nan p_x = false /\ is_nan p_y = false /\
   (0.05 <? p_x)%float = true /\ (0.05 <? p_y)%float = true)
  /\ (use_pearson p_x p_y = false <->
      is_nan p_x = true \/ is_nan p_y = true \/
      (p_x <=? 0.05)%float = true \/ (p_y <=? 0.05)%float = true)
  /\ (use_pearson p_x p_y = true ->
      ends_with (run df col_x col_y) "Pearson" (pearsonr x y))
  /\ (use_pearson p_x p_y = false ->
      ends_with (run df col_x col_y) "Spearman" (spearmanr x y)).
Proof.
  intros Hc Hlen p_x p_y.
  split; [apply use_pearson_true|]. split; [apply use_pearson_false|].
  apply analyze_ends_with; assumption.
Qed.

(** C2: when the cleaned pair has fewer than 3 rows the run shows the
    "not enough data" error and stops there: nothing else is rendered, no
    result exists, and the outcome does not depend on any of the
    statistical routines. *)
Theorem insufficient_data (df : DataFrame) (col_x col_y : string)
        (data : DataFrame) :
  clean parse_float df col_x col_y = inr data ->
  nrows data < 3 ->
  run df col_x col_y = ([st_error (LANG lang_sel k_error_pairs)], Stopped).
Proof.
  intros Hc Hlt. unfold analyze. rewrite Hc. cbn [lift bind].
  destruct (Nat.ltb_spec (nrows data) 3) as [_ | Hge]; [|lia].
  reflexivity.
Qed.

Lemma constant_series (s : list float) :
  (forall v, In v s -> is_nan v = false) ->
  (forall v w, In v s -> In w s -> v = w) ->
  constant s = true.
Proof.
  intros Hn Hc. unfold constant. destruct s as [|a s]; [reflexivity|].
  cbn [hd]. apply forallb_forall. intros v Hv.
  rewrite (Hc v a Hv (or_introl eq_refl)).
  specialize (Hn a (or_introl eq_refl)). unfold is_nan in Hn.
  now apply negb_false_iff in Hn.
Qed.

(** C3: for a series of the cleaned pair the normality result is NaN
    ("not computable") when the series has fewer than 3 values, when all
    its values are identical, and when the Shapiro-Wilk routine raises (the
    exception is absorbed: [safe_shapiro] is a total function); and a NaN
    result on either series makes the handler take Spearman. *)
Theorem normality_not_computable (df : DataFrame) (col_x col_y : string)
        (x y : list float) :
  clean parse_float df col_x col_y
  = inr [(col_x, FloatCol x); (col_y, FloatCol y)] ->
  (forall s, List.length s < 3 -> p_of s = nan)
  /\ (forall s, s = x \/ s = y ->
       (forall v w, In v s -> In w s -> v = w) -> p_of s = nan)
  /\ (forall s e, shapiro s = inl e -> p_of s = nan)
  /\ (is_nan (p_of x) = true \/ is_nan (p_of y) = true ->
      use_pearson (p_of x) (p_of y) = false /\
      corr_of (p_of x) (p_of y) x y
      = bind_exn (spearmanr x y) (fun r => inr ("Spearman", r)) /\
      (3 <= List.length x ->
       ends_with (run df col_x col_y) "Spearman" (spearmanr x y))).
Proof.
  intros Hc.
  destruct (clean_shape _ _ _ _ _ Hc) as (x' & y' & E & _ & Nx & Ny).
  injection E as <- <-.
  repeat split.
  - intros s Hs. unfold safe_shapiro.
    destruct (Nat.ltb_spec (List.length s) 3); [reflexivity | lia].
  - intros s Hs Hconst. unfold safe_shapiro.
    destruct (List.length s <? 3)%nat; [reflexivity|].
    rewrite constant_series; [reflexivity | | exact Hconst].
    destruct Hs as [-> | ->]; assumption.
  - intros s e He. unfold safe_shapiro. rewrite He.
    destruct (List.length s <? 3)%nat, (constant s); reflexivity.
  - apply use_pearson_false. tauto.
  - unfold correlate.
    assert (use_pearson (p_of x) (p_of y) = false) as ->
      by (apply use_pearson_false; tauto).
    reflexivity.
  - intros Hlen.
    apply (analyze_ends_with df col_x col_y x y Hc Hlen).
    apply use_pearson_false. tauto.
Qed.

(** C10: a run that completes with a NaN coefficient records the
    direction "negative" and the strength "strong": every comparison with
    NaN is false, so each conditional falls to its last branch. *)
Theorem nan_coefficient (df : DataFrame) (col_x col_y : string)
        (ev : list event) (res : Result) :
  run df col_x col_y = (ev, Ret res) ->
  is_nan (res_corr res) = true ->
  res_direction res = LANG lang_sel k_negative /\
  res_strength res = LANG lang_sel k_strong.
Proof.
  intros H Hnan. destruct (analyze_result _ _ _ _ _ H) as [-> ->].
  now apply nan_interpretation.
Qed.

(** Selecting one label twice: cleaning raises. *)
Lemma clean_same_column (df : DataFrame) (c : string) :
  clean parse_float df c c
  = inl (match select df c with [] => KeyError | _ => TypeError end).
Proof.
  unfold clean. simpl getitem_list.
  destruct (select df c) as [|p r] eqn:E; [reflexivity|].
  cbn [bind_exn]. rewrite app_nil_r.
  assert (G : convert_column parse_float (p :: r ++ p :: r) c
              = inl TypeError).
  { unfold convert_column, getitem.
    change (p :: r ++ p :: r) with ((p :: r) ++ (p :: r)).
    rewrite select_app, <- E, select_same, E.
    destruct p as [l s], r; reflexivity. }
  rewrite G. reflexivity.
Qed.

Lemma analyze_same_column (df : DataFrame) (c : string) :
  run df c c
  = ([], Raised (match select df c with [] => KeyError | _ => TypeError end)).
Proof.
  unfold analyze. rewrite clean_same_column. reflexivity.
Qed.

(** C8: with the same column chosen for X and Y there is no guard, and
    the run does not complete: [data[col_x]] is then a two-column frame,
    which [pd.to_numeric] rejects with [TypeError] (a label absent from
    the frame gives [KeyError]).  No coefficient is produced, as on the
    one-column sample. *)
Theorem self_correlation_raises (df : DataFrame) (c : string) :
  run df c c
  = ([], Raised (match select df c with [] => KeyError | _ => TypeError end))
  /\ run Sample.single "score" "score" = ([], Raised TypeError).
Proof.
  split; [apply analyze_same_column|].
  now rewrite analyze_same_column.
Qed.

(** A label that is not repeated selects the one column it names. *)
Lemma select_unique (df : DataFrame) (c : string) (s : Series) :
  NoDup (map fst df) -> In (c, s) df -> select df c = [(c, s)].
Proof.
  unfold select, has_label.
  induction df as [|[l s0] df IH]; simpl; [contradiction|].
  intros Hnd Hin. inversion Hnd as [|? ? Hl Hnd']; subst.
  destruct Hin as [[= -> ->] | Hin].
  - rewrite String.eqb_refl. f_equal.
    clear IH Hnd Hnd'. induction df as [|[l' s'] df IH]; [reflexivity|].
    simpl in *. destruct (String.eqb_spec l' c) as [-> | _]; [tauto|].
    apply IH. tauto.
  - destruct (String.eqb_spec l c) as [-> | _].
    + exfalso. apply Hl. now apply (in_map fst _ _ Hin).
    + now apply IH.
Qed.

(** The columns offered by the select boxes are float columns. *)
Lemma numeric_cols_float (df : DataFrame) (c : string) :
  In c (numeric_cols df) -> exists v, In (c, FloatCol v) df.
Proof.
  unfold numeric_cols. intros H. apply in_map_iff in H.
  destruct H as ([l s] & <- & H). apply filter_In in H.
  destruct H as [H Hd]. destruct s as [v|v]; [|discriminate Hd].
  now exists v.
Qed.

(** C9: coercing a column that already holds numbers changes no value:
    for a numeric column of the frame [pd.to_numeric] returns the column
    as it is and writing it back leaves the frame as it was; an object
    column whose cells are all numbers yields exactly those numbers. *)
Theorem coercion_noop (df : DataFrame) (c : string) :
  NoDup (map fst df) ->
  In c (numeric_cols df) ->
  (exists v, getitem df c = inr (PSeries (FloatCol v)) /\
             bind_exn (getitem df c) (to_numeric parse_float)
             = inr (FloatCol v))
  /\ convert_column parse_float df c = inr df
  /\ (forall w, to_numeric parse_float (PSeries (FloatCol w))
                = inr (FloatCol w))
  /\ (forall w, to_numeric parse_float (PSeries (ObjectCol (map ONum w)))
                = inr (FloatCol w)).
Proof.
  intros Hnd Hc. destruct (numeric_cols_float _ _ Hc) as [v Hin].
  pose proof (select_unique _ _ _ Hnd Hin) as H.
  repeat split.
  - exists v. unfold getitem. rewrite H. split; reflexivity.
  - rewrite (convert_column_single _ _ _ _ H). simpl.
    now rewrite (setitem_same _ _ _ H).
  - intros w. simpl. now rewrite map_map, map_id.
Qed.

Lemma combine_fst_snd {A B : Type} (l : list (A * B)) :
  combine (map fst l) (map snd l) = l.
Proof.
  induction l as [|[a b] l IH]; simpl; [reflexivity | now rewrite IH].
Qed.

Lemma select_In (df : DataFrame) (c : string) (s : Series) :
  select df c = [(c, s)] -> In (c, s) df.
Proof.
  intros H. assert (In (c, s) (select df c)) by (rewrite H; now left).
  apply filter_In in H0. tauto.
Qed.

(** C6: the cleaned pair is the source rows without those that miss x or
    y, in their order: its two columns have the same length, which is the
    row count of the frame minus the number of rows with a missing or
    non-numeric x or y, and so at most the row count. *)
Theorem cleaned_pair_invariant (df : DataFrame) (col_x col_y : string)
        (data : DataFrame) :
  well_formed df ->
  clean parse_float df col_x col_y = inr data ->
  exists sx sy x y,
    select df col_x = [(col_x, sx)] /\
    select df col_y = [(col_y, sy)] /\
    data = [(col_x, FloatCol x); (col_y, FloatCol y)] /\
    combine x y = CleanedPair parse_float sx sy /\
    subseq (combine x y) (rows parse_float sx sy) /\
    List.length x = List.length y /\
    nrows data = List.length x /\
    nrows data <= nrows df /\
    nrows data = nrows df - missing_rows parse_float sx sy.
Proof.
  intros Hwf Hc.
  destruct (clean_inv _ _ _ _ _ Hc) as (sx & sy & Hx & Hy & Hne).
  pose proof (select_In _ _ _ Hx) as Ix.
  pose proof (select_In _ _ _ Hy) as Iy.
  assert (Hlen : series_len sx = series_len sy)
    by apply (Hwf _ _ Ix Iy).
  assert (Hn : nrows df = series_len sx).
  { destruct df as [|[l0 s0] df']; [contradiction|].
    apply (Hwf (l0, s0) (col_x, sx)); [now left | exact Ix]. }
  rewrite (clean_distinct _ _ _ _ _ _ Hx Hy Hne) in Hc.
  rewrite (dropna_coerced_pair _ _ _ _ _ Hlen) in Hc.
  injection Hc as <-.
  exists sx, sy, (map fst (CleanedPair parse_float sx sy)),
    (map snd (CleanedPair parse_float sx sy)).
  rewrite combine_fst_snd. cbn [nrows series_len]. rewrite !length_map.
  assert (Hr : List.length (rows parse_float sx sy) = series_len sx).
  { unfold rows. rewrite length_combine, !coerced_length. lia. }
  assert (Hcp : List.length (CleanedPair parse_float sx sy)
                = series_len sx - missing_rows parse_float sx sy).
  { unfold CleanedPair, missing_rows.
    now rewrite filter_length_split, Hr. }
  repeat split; auto.
  - apply filter_subseq.
  - lia.
  - lia.
Qed.

End HandlerFacts.

(** ** The regression line *)

Section RegressionFacts.

Variable parse_float : string -> option float.
Variable shapiro : list float -> exn + (float * float).
Variables pearsonr spearmanr :
  list float -> list float -> exn + (float * float).
Variable linspace : float -> float -> nat -> list float.
Variable fmt : nat -> float -> string.
Variable lang_sel : lang.

(** Two fitting routines: the one in use, and any other. *)
Variables linregress linregress' :
  list float -> list float -> exn + (float * float).

Local Notation run_with lr :=
  (analyze parse_float shapiro pearsonr spearmanr lr linspace fmt lang_sel).
Local Notation cleaned_with lr :=
  (analyze_cleaned shapiro pearsonr spearmanr lr linspace fmt lang_sel).

(** Apart from the line itself, the fitting routine has no influence on
    the part after the length check. *)
Lemma without_line_cleaned (col_x col_y : string) (x y : list float) :
  without_line (cleaned_with linregress col_x col_y x y)
  = without_line (cleaned_with linregress' col_x col_y x y).
Proof.
  unfold analyze_cleaned, regression_line, without_line.
  destruct (correlate pearsonr spearmanr (safe_shapiro shapiro x)
                      (safe_shapiro shapiro y) x y)
    as [e | [method [corr pval]]]; simpl; [reflexivity|].
  destruct (linregress x y) as [e | [s i]],
           (linregress' x y) as [e' | [s' i']]; reflexivity.
Qed.

Lemma no_line_when_fit_fails (col_x col_y : string) (x y : list float)
      (e : exn) (xl yl : list float) :
  linregress x y = inl e ->
  ~ In (ax_plot xl yl) (fst (cleaned_with linregress col_x col_y x y)).
Proof.
  intros Hf. unfold analyze_cleaned, regression_line. rewrite Hf.
  destruct (correlate pearsonr spearmanr (safe_shapiro shapiro x)
                      (safe_shapiro shapiro y) x y)
    as [e' | [method [corr pval]]]; simpl; intuition discriminate.
Qed.

(** C7: when the line fit raises on a cleaned pair of at least 3 rows,
    the run is, apart from the line, the run with any other fitting
    routine: same rendering, same method, coefficient, p-value, normality
    results, direction and strength.  No line is drawn, and the run ends
    as the correlation step dictates, with no regression line recorded. *)
Theorem regression_failure_nonfatal (df : DataFrame) (col_x col_y : string)
        (x y : list float) (e : exn) :
  clean parse_float df col_x col_y
  = inr [(col_x, FloatCol x); (col_y, FloatCol y)] ->
  3 <= List.length x ->
  linregress x y = inl e ->
  let p_x := safe_shapiro shapiro x in
  let p_y := safe_shapiro shapiro y in
  without_line (run_with linregress df col_x col_y)
  = without_line (run_with linregress' df col_x col_y)
  /\ (forall xl yl,
        ~ In (ax_plot xl yl) (fst (run_with linregress df col_x col_y)))
  /\ match correlate pearsonr spearmanr p_x p_y x y with
     | inl e' => snd (run_with linregress df col_x col_y) = Raised e'
     | inr (method, (corr, pval)) =>
         snd (run_with linregress df col_x col_y)
         = Ret (mkResult p_x p_y method corr pval
                         (direction (LANG lang_sel) corr)
                         (strength (LANG lang_sel) corr) None)
     end.
Proof.
  intros Hc Hlen Hf p_x p_y.
  rewrite !(analyze_reaches parse_float shapiro pearsonr spearmanr _
              linspace fmt lang_sel df col_x col_y x y Hc Hlen).
  split; [apply without_line_cleaned|].
  split; [intros xl yl; now apply (no_line_when_fit_fails _ _ _ _ e)|].
  rewrite analyze_cleaned_snd. fold p_x p_y. rewrite Hf.
  destruct (correlate pearsonr spearmanr p_x p_y x y)
    as [e' | [method [corr pval]]]; reflexivity.
Qed.

End RegressionFacts.

(** ** The theorems at the sample inputs *)

Section Witnesses.

Import Sample.

Local Notation sample_run lr l :=
  (analyze parse_float shapiro pearsonr spearmanr lr linspace fmt l).

Lemma linear_well_formed : well_formed linear.
Proof.
  intros p q [<- | [<- | []]] [<- | [<- | []]]; reflexivity.
Defined.

Lemma mixed_well_formed : well_formed mixed.
Proof.
  intros p q [<- | [<- | []]] [<- | [<- | []]]; reflexivity.
Defined.

(** Five linear rows, both normality p-values 0.5: Pearson. *)
Lemma method_selection_witness :
  ends_with (sample_run linregress en_lang linear "x" "y") "Pearson"
            (pearsonr [1; 2; 3; 4; 5]%float [2; 4; 6; 8; 10]%float).
Proof.
  destruct (method_selection parse_float shapiro pearsonr spearmanr
              linregress linspace fmt en_lang linear "x" "y"
              [1; 2; 3; 4; 5]%float [2; 4; 6; 8; 10]%float)
    as (_ & _ & HP & _).
  - reflexivity.
  - simpl. lia.
  - apply HP. reflexivity.
Defined.

(** Only two complete rows: the error message, then stop. *)
Lemma insufficient_data_witness :
  sample_run linregress id_lang two_valid "x" "y"
  = ([st_error (LANG id_lang k_error_pairs)], Stopped).
Proof.
  apply (insufficient_data parse_float shapiro pearsonr spearmanr
           linregress linspace fmt id_lang two_valid "x" "y"
           [("x", FloatCol [1; 4]%float); ("y", FloatCol [2; 7]%float)]).
  - reflexivity.
  - simpl. lia.
Defined.

(** A constant x column: its normality result is NaN and the method is
    Spearman. *)
Lemma normality_not_computable_witness :
  safe_shapiro shapiro [1; 1; 1; 1; 1]%float = nan /\
  ends_with (sample_run linregress en_lang constant_x "x" "y") "Spearman"
            (spearmanr [1; 1; 1; 1; 1]%float [2; 3; 1; 5; 4]%float).
Proof.
  destruct (normality_not_computable parse_float shapiro pearsonr spearmanr
              linregress linspace fmt en_lang constant_x "x" "y"
              [1; 1; 1; 1; 1]%float [2; 3; 1; 5; 4]%float)
    as (_ & _ & _ & H).
  - reflexivity.
  - split; [reflexivity|].
    destruct H as (_ & _ & H); [left; reflexivity|].
    apply H. simpl. lia.
Defined.

(** Four source rows, two of them with a missing or non-numeric value. *)
Lemma cleaned_pair_invariant_witness :
  exists sx sy x y,
    select mixed "x" = [("x", sx)] /\
    select mixed "y" = [("y", sy)] /\
    [("x", FloatCol [1; 4]%float); ("y", FloatCol [2; 7]%float)]
    = [("x", FloatCol x); ("y", FloatCol y)] /\
    combine x y = CleanedPair parse_float sx sy /\
    subseq (combine x y) (rows parse_float sx sy) /\
    List.length x = List.length y /\
    2 = List.length x /\
    2 <= 4 /\
    2 = 4 - missing_rows parse_float sx sy.
Proof.
  apply (cleaned_pair_invariant parse_float mixed "x" "y"
           [("x", FloatCol [1; 4]%float); ("y", FloatCol [2; 7]%float)]).
  - exact mixed_well_formed.
  - reflexivity.
Defined.

(** The fit raises on the constant x column; the run still completes. *)
Lemma regression_failure_nonfatal_witness :
  without_line (sample_run linregress_raises en_lang constant_x "x" "y")
  = without_line (sample_run linregress en_lang constant_x "x" "y")
  /\ snd (sample_run linregress_raises en_lang constant_x "x" "y")
     = Ret (mkResult nan 0.5 "Spearman" nan nan "negative" "strong" None).
Proof.
  destruct (regression_failure_nonfatal parse_float shapiro pearsonr
              spearmanr linspace fmt en_lang linregress_raises linregress
              constant_x "x" "y"
              [1; 1; 1; 1; 1]%float [2; 3; 1; 5; 4]%float
              (OtherError "ValueError"))
    as (H1 & _ & H3).
  - reflexivity.
  - simpl. lia.
  - reflexivity.
  - split; [exact H1 | exact H3].
Defined.

Lemma linear_labels : NoDup (map fst linear).
Proof.
  repeat constructor; simpl; intuition discriminate.
Defined.

(** The x column of the linear sample. *)
Lemma coercion_noop_witness :
  convert_column parse_float linear "x" = inr linear.
Proof.
  destruct (coercion_noop parse_float linear "x") as (_ & H & _).
  - exact linear_labels.
  - simpl. tauto.
  - exact H.
Defined.

(** Spearman over the constant x column returns NaN. *)
Lemma nan_coefficient_witness :
  exists ev res,
    sample_run linregress en_lang constant_x "x" "y" = (ev, Ret res) /\
    is_nan (res_corr res) = true /\
    res_direction res = "negative" /\ res_strength res = "strong".
Proof.
  eexists _, _. split; [reflexivity|]. split; [reflexivity|].
  eapply (nan_coefficient parse_float shapiro pearsonr spearmanr linregress
            linspace fmt en_lang constant_x "x" "y");
    reflexivity.
Defined.

End Witnesses.

(** ** More on the cleaning step *)

Section CleaningOutcome.

Variable parse_float : string -> option float.

Lemma convert_column_none (data : DataFrame) (c : string) :
  select data c = [] -> convert_column parse_float data c = inl KeyError.
Proof.
  intros H. unfold convert_column, getitem. now rewrite H.
Qed.

Lemma convert_column_many (data : DataFrame) (c : string)
      (p q : string * Series) (r : DataFrame) :
  select data c = p :: q :: r ->
  convert_column parse_float data c = inl TypeError.
Proof.
  intros H. unfold convert_column, getitem. rewrite H.
  destruct p as [l s]. reflexivity.
Qed.

Lemma select_length_one (df : DataFrame) (c : string) :
  List.length (select df c) = 1 -> exists s, select df c = [(c, s)].
Proof.
  intros H. destruct (select df c) as [|[l s] [|q r]] eqn:E;
    try discriminate H.
  exists s. now rewrite (select_single_eq _ _ _ _ E).
Qed.

(** The three ways the cleaning step can end. *)
Lemma clean_classify (df : DataFrame) (col_x col_y : string) :
  ((select df col_x = [] \/ select df col_y = []) /\
   clean parse_float df col_x col_y = inl KeyError)
  \/ ((select df col_x <> [] /\ select df col_y <> [] /\
       (col_x = col_y \/ 1 < List.length (select df col_x)
        \/ 1 < List.length (select df col_y))) /\
      clean parse_float df col_x col_y = inl TypeError)
  \/ ((col_x <> col_y /\ List.length (select df col_x) = 1 /\
       List.length (select df col_y) = 1) /\
      exists data, clean parse_float df col_x col_y = inr data).
Proof.
  destruct (select df col_x) as [|px rx] eqn:Ex.
  { left. split; [now left|]. unfold clean. simpl getitem_list.
    now rewrite Ex. }
  destruct (select df col_y) as [|py ry] eqn:Ey.
  { left. split; [now right|]. unfold clean. simpl getitem_list.
    now rewrite Ex, Ey. }
  right.
  destruct (String.eqb_spec col_x col_y) as [Heq | Hne].
  { left. subst col_y. split.
    - repeat split; try discriminate. now left.
    - rewrite clean_same_column, Ex. reflexivity. }
  assert (Hcl : clean parse_float df col_x col_y
                = bind_exn (convert_column parse_float
                              (select df col_x ++ select df col_y) col_x)
                    (fun data =>
                       bind_exn (convert_column parse_float data col_y)
                                (fun data => inr (dropna data)))).
  { unfold clean. simpl getitem_list. rewrite Ex, Ey.
    cbn [bind_exn]. now rewrite app_nil_r. }
  assert (Sx : select (select df col_x ++ select df col_y) col_x
               = select df col_x).
  { rewrite select_app, select_same, (select_other df col_y col_x)
      by congruence. apply app_nil_r. }
  destruct rx as [|qx rx].
  - destruct ry as [|qy ry].
    + right. split; [simpl; auto|].
      destruct px as [lx sx], py as [ly sy].
      pose proof (select_single_eq _ _ _ _ Ex) as ->.
      pose proof (select_single_eq _ _ _ _ Ey) as ->.
      eexists. apply (clean_distinct _ _ _ _ _ _ Ex Ey Hne).
    + left. split.
      { repeat split; try discriminate.
        right. right. simpl. lia. }
      rewrite Hcl. destruct px as [lx sx].
      pose proof (select_single_eq _ _ _ _ Ex) as ->.
      rewrite (convert_column_single _ _ col_x sx) by now rewrite Sx.
      cbn [bind_exn].
      erewrite convert_column_many; [reflexivity|].
      rewrite Ex. unfold setitem, has_label. simpl.
      rewrite String.eqb_refl. simpl.
      assert (Exy : String.eqb col_x col_y = false)
        by now apply String.eqb_neq.
      unfold select at 1. simpl. unfold has_label at 1. simpl.
      rewrite Exy.
      rewrite (relabel_other (select df col_y) col_x col_y)
        by (congruence || apply select_label).
      fold (select (select df col_y) col_y).
      rewrite select_same. exact Ey.
  - left. split.
    { repeat split; try discriminate.
      right. left. simpl. lia. }
    rewrite Hcl.
    erewrite convert_column_many; [reflexivity|].
    rewrite Sx. exact Ex.
Qed.

(** X1: how cleaning ends is decided by the two labels alone: [KeyError]
    exactly when one of them names no column, [TypeError] exactly when
    both name a column but they are the same label or one of them names
    several columns, success exactly when they are two different labels
    that each name one column; no other exception occurs. *)
Theorem clean_outcome (df : DataFrame) (col_x col_y : string) :
  (clean parse_float df col_x col_y = inl KeyError
   <-> select df col_x = [] \/ select df col_y = [])
  /\ (clean parse_float df col_x col_y = inl TypeError
      <-> select df col_x <> [] /\ select df col_y <> [] /\
          (col_x = col_y \/ 1 < List.length (select df col_x)
           \/ 1 < List.length (select df col_y)))
  /\ ((exists data, clean parse_float df col_x col_y = inr data)
      <-> col_x <> col_y /\ List.length (select df col_x) = 1 /\
          List.length (select df col_y) = 1)
  /\ (forall name,
        clean parse_float df col_x col_y <> inl (OtherError name)).
Proof.
  destruct (clean_classify df col_x col_y)
    as [[C ->] | [[C ->] | [C [data ->]]]].
  - split; [split; [intros _; exact C | reflexivity]|].
    split; [split; [discriminate|]|].
    { intros (Hx & Hy & _). destruct C; contradiction. }
    split; [split|discriminate].
    + intros [data H]. discriminate H.
    + intros (_ & Lx & Ly).
      destruct C as [C | C]; rewrite C in *; discriminate.
  - split; [split; [discriminate|]|].
    { intros [H | H]; destruct C as (Hx & Hy & _); contradiction. }
    split; [split; [intros _; exact C | reflexivity]|].
    split; [split|discriminate].
    + intros [data H]. discriminate H.
    + intros (Hne & Lx & Ly).
      destruct C as (_ & _ & [C | [C | C]]); [congruence | lia | lia].
  - destruct C as (Hne & Lx & Ly).
    split; [split; [discriminate|]|].
    { intros [H | H]; rewrite H in *; discriminate. }
    split; [split; [discriminate|]|].
    { intros (_ & _ & [H | [H | H]]); [congruence | lia | lia]. }
    split; [split|discriminate].
    + intros _. auto.
    + intros _. now exists data.
Qed.

(** The frame a successful cleaning returns, over equal-length columns. *)
Lemma clean_success_form (df : DataFrame) (col_x col_y : string)
      (data : DataFrame) :
  well_formed df ->
  clean parse_float df col_x col_y = inr data ->
  exists sx sy,
    select df col_x = [(col_x, sx)] /\
    select df col_y = [(col_y, sy)] /\
    col_x <> col_y /\
    series_len sx = series_len sy /\
    data = [ (col_x, FloatCol (map fst (CleanedPair parse_float sx sy)));
             (col_y, FloatCol (map snd (CleanedPair parse_float sx sy))) ].
Proof.
  intros Hwf Hc.
  destruct (clean_inv _ _ _ _ _ Hc) as (sx & sy & Hx & Hy & Hne).
  assert (Hlen : series_len sx = series_len sy)
    by apply (Hwf _ _ (select_In parse_float _ _ _ Hx)
                  (select_In parse_float _ _ _ Hy)).
  rewrite (clean_distinct _ _ _ _ _ _ Hx Hy Hne) in Hc.
  rewrite (dropna_coerced_pair _ _ _ _ _ Hlen) in Hc.
  injection Hc as <-. exists sx, sy. auto.
Qed.

Lemma select_pair (col_x col_y : string) (sx sy : Series) :
  col_x <> col_y ->
  select [(col_x, sx); (col_y, sy)] col_x = [(col_x, sx)] /\
  select [(col_x, sx); (col_y, sy)] col_y = [(col_y, sy)].
Proof.
  intros Hne. unfold select, has_label. simpl.
  rewrite !String.eqb_refl.
  assert (String.eqb col_x col_y = false) as -> by now apply String.eqb_neq.
  assert (String.eqb col_y col_x = false) as ->
    by (apply String.eqb_neq; congruence).
  split; reflexivity.
Qed.

Lemma filter_twice {A : Type} (f : A -> bool) (l : list A) :
  filter f (filter f l) = filter f l.
Proof.
  induction l as [|a l IH]; simpl; [reflexivity|].
  destruct (f a) eqn:E; simpl; rewrite ?E, IH; reflexivity.
Qed.

(** X2: after a successful cleaning every column of the frame is a float
    column and none of its values is NaN: the statistical routines only
    ever receive numbers. *)
Theorem cleaned_values_are_numbers (df : DataFrame) (col_x col_y : string)
        (data : DataFrame) (c : string) (s : Series) :
  clean parse_float df col_x col_y = inr data ->
  In (c, s) data ->
  (c = col_x \/ c = col_y) /\
  exists v, s = FloatCol v /\ forall f, In f v -> is_nan f = false.
Proof.
  intros Hc Hin.
  destruct (clean_shape _ _ _ _ _ Hc) as (x & y & -> & _ & Nx & Ny).
  destruct Hin as [[= <- <-] | [[= <- <-] | []]].
  - split; [now left|]. now exists x.
  - split; [now right|]. now exists y.
Qed.

(** X3: cleaning is idempotent: cleaning the cleaned frame again, under
    the same two labels, returns it unchanged. *)
Theorem clean_idempotent (df : DataFrame) (col_x col_y : string)
        (data : DataFrame) :
  well_formed df ->
  clean parse_float df col_x col_y = inr data ->
  clean parse_float data col_x col_y = inr data.
Proof.
  intros Hwf Hc.
  destruct (clean_success_form _ _ _ _ Hwf Hc)
    as (sx & sy & _ & _ & Hne & _ & ->).
  set (cp := CleanedPair parse_float sx sy).
  destruct (select_pair col_x col_y (FloatCol (map fst cp))
                        (FloatCol (map snd cp)) Hne) as [Sx Sy].
  rewrite (clean_distinct _ _ _ _ _ _ Sx Sy Hne).
  rewrite dropna_coerced_pair by (simpl; now rewrite !length_map).
  unfold CleanedPair at 1 2, rows. simpl coerced.
  rewrite combine_fst_snd. unfold cp, CleanedPair.
  now rewrite filter_twice.
Qed.

Lemma filter_all {A : Type} (f : A -> bool) (l : list A) :
  (forall a, In a l -> f a = true) -> filter f l = l.
Proof.
  induction l as [|a l IH]; simpl; intros H; [reflexivity|].
  rewrite (H a (or_introl eq_refl)), IH; auto.
Qed.

Lemma combine_map_fst {A B : Type} (a : list A) (b : list B) :
  List.length a = List.length b ->
  map fst (combine a b) = a /\ map snd (combine a b) = b.
Proof.
  revert b. induction a as [|x a IH]; intros [|y b] H; simpl in *;
    try discriminate; [split; reflexivity|].
  injection H as H. destruct (IH b H) as [-> ->]. split; reflexivity.
Qed.

(** X4: when no row misses a value, cleaning drops nothing: the cleaned
    columns are the two source columns, coerced, whole and in order. *)
Theorem clean_complete_data (df : DataFrame) (col_x col_y : string)
        (sx sy : Series) :
  select df col_x = [(col_x, sx)] ->
  select df col_y = [(col_y, sy)] ->
  col_x <> col_y ->
  series_len sx = series_len sy ->
  (forall r, In r (rows parse_float sx sy) -> complete_row r = true) ->
  clean parse_float df col_x col_y
  = inr [ (col_x, FloatCol (coerced parse_float sx));
          (col_y, FloatCol (coerced parse_float sy)) ].
Proof.
  intros Hx Hy Hne Hlen Hall.
  rewrite (clean_distinct _ _ _ _ _ _ Hx Hy Hne).
  rewrite (dropna_coerced_pair _ _ _ _ _ Hlen).
  unfold CleanedPair. rewrite (filter_all _ _ Hall). unfold rows.
  destruct (combine_map_fst (coerced parse_float sx)
                            (coerced parse_float sy)) as [-> ->];
    [now rewrite !coerced_length | reflexivity].
Qed.

End CleaningOutcome.

(** ** More on the handler *)

Section HandlerOutcome.

Variable parse_float : string -> option float.
Variable shapiro : list float -> exn + (float * float).
Variables pearsonr spearmanr :
  list float -> list float -> exn + (float * float).
Variable linregress : list float -> list float -> exn + (float * float).
Variable linspace : float -> float -> nat -> list float.
Variable fmt : nat -> float -> string.
Variable lang_sel : lang.

Local Notation run :=
  (analyze parse_float shapiro pearsonr spearmanr linregress linspace fmt
           lang_sel).
Local Notation run_cleaned :=
  (analyze_cleaned shapiro pearsonr spearmanr linregress linspace fmt
                   lang_sel).
Local Notation corr_of := (correlate pearsonr spearmanr).
Local Notation p_of := (safe_shapiro shapiro).
Local Notation reaches :=
  (analyze_reaches parse_float shapiro pearsonr spearmanr linregress
                   linspace fmt lang_sel).

Lemma combine_swap {A B : Type} (a : list A) (b : list B) :
  combine b a = map (fun r => (snd r, fst r)) (combine a b).
Proof.
  revert b. induction a as [|x a IH]; intros [|y b]; simpl;
    try reflexivity. now rewrite IH.
Qed.

Lemma cleaned_pair_swap (sx sy : Series) :
  CleanedPair parse_float sy sx
  = map (fun r => (snd r, fst r)) (CleanedPair parse_float sx sy).
Proof.
  unfold CleanedPair, rows.
  rewrite (combine_swap (coerced parse_float sx) (coerced parse_float sy)).
  induction (combine (coerced parse_float sx) (coerced parse_float sy))
    as [|[a b] l IH]; simpl; [reflexivity|].
  assert (complete_row (b, a) = complete_row (a, b)) as ->
    by (unfold complete_row; simpl; apply andb_comm).
  destruct (complete_row (a, b)); simpl; now rewrite IH.
Qed.

Lemma use_pearson_sym (p q : float) : use_pearson p q = use_pearson q p.
Proof.
  unfold use_pearson.
  destruct (is_nan p), (is_nan q), (0.05 <? p)%float, (0.05 <? q)%float;
    reflexivity.
Qed.

(** X5: the choice of method does not depend on which variable is X and
    which is Y: with the two labels exchanged the cleaned columns are the
    same two columns exchanged, and the handler takes the same method. *)
Theorem method_symmetric (df : DataFrame) (col_x col_y : string)
        (x y : list float) :
  well_formed df ->
  clean parse_float df col_x col_y
  = inr [(col_x, FloatCol x); (col_y, FloatCol y)] ->
  clean parse_float df col_y col_x
  = inr [(col_y, FloatCol y); (col_x, FloatCol x)]
  /\ use_pearson (p_of y) (p_of x) = use_pearson (p_of x) (p_of y)
  /\ (3 <= List.length x ->
      (use_pearson (p_of x) (p_of y) = true ->
       ends_with (run df col_y col_x) "Pearson" (pearsonr y x))
      /\ (use_pearson (p_of x) (p_of y) = false ->
          ends_with (run df col_y col_x) "Spearman" (spearmanr y x))).
Proof.
  intros Hwf Hc.
  destruct (clean_success_form _ _ _ _ _ Hwf Hc)
    as (sx & sy & Hx & Hy & Hne & Hlen & E).
  injection E as -> ->.
  assert (Hs : clean parse_float df col_y col_x
               = inr [ (col_y, FloatCol
                                 (map snd (CleanedPair parse_float sx sy)));
                       (col_x, FloatCol
                                 (map fst (CleanedPair parse_float sx sy)))
                     ]).
  { rewrite (clean_distinct _ _ _ _ _ _ Hy Hx) by congruence.
    rewrite dropna_coerced_pair by congruence.
    rewrite cleaned_pair_swap, !map_map. reflexivity. }
  split; [exact Hs|]. split; [apply use_pearson_sym|].
  intros Hge. rewrite <- (use_pearson_sym (p_of _) (p_of _)).
  apply (analyze_ends_with parse_float shapiro pearsonr spearmanr
           linregress linspace fmt lang_sel _ _ _ _ _ Hs).
  now rewrite length_map in *.
Qed.

(** X6: a normality p-value that is a number was returned by the
    Shapiro-Wilk routine on a series of at least 3 values that are not all
    equal to the first. *)
Theorem computable_normality (x : list float) :
  is_nan (p_of x) = false ->
  3 <= List.length x /\
  constant x = false /\
  exists w, shapiro x = inr (w, p_of x).
Proof.
  unfold safe_shapiro.
  destruct (Nat.ltb_spec (List.length x) 3) as [Hlt | Hge];
    [discriminate|].
  destruct (constant x); [discriminate|].
  destruct (shapiro x) as [e | [w p]]; [discriminate|].
  intros _. repeat split; [exact Hge|]. now exists w.
Qed.

(** X7: when the chosen correlation routine raises, the page shows the
    normality section (heading and the two p-value lines) and nothing
    else, and the run ends with that exception. *)
Theorem correlation_failure_rendering (df : DataFrame)
        (col_x col_y : string) (x y : list float) (e : exn) :
  clean parse_float df col_x col_y
  = inr [(col_x, FloatCol x); (col_y, FloatCol y)] ->
  3 <= List.length x ->
  corr_of (p_of x) (p_of y) x y = inl e ->
  run df col_x col_y
  = ([ st_subheader (LANG lang_sel k_normality);
       st_write (LANG lang_sel k_px ++ ": "
                 ++ normality_text fmt (p_of x))%string;
       st_write (LANG lang_sel k_py ++ ": "
                 ++ normality_text fmt (p_of y))%string ],
     Raised e).
Proof.
  intros Hc Hlen He. rewrite (reaches _ _ _ _ _ Hc Hlen).
  unfold analyze_cleaned. rewrite He. reflexivity.
Qed.

Lemma analyze_cleaned_no_error (col_x col_y : string) (x y : list float) :
  snd (run_cleaned col_x col_y x y) <> Stopped /\
  (forall body, ~ In (st_error body) (fst (run_cleaned col_x col_y x y))) /\
  fst (run_cleaned col_x col_y x y) <> [].
Proof.
  unfold analyze_cleaned, regression_line.
  destruct (corr_of (p_of x) (p_of y) x y) as [e | [method [corr pval]]];
    simpl.
  - repeat split; try discriminate. intros body. intuition discriminate.
  - destruct (linregress x y) as [e | [slope intercept]]; simpl;
      (repeat split; try discriminate; intros body; intuition discriminate).
Qed.

(** The three ways a run can go, by the outcome of cleaning and the
    length check. *)
Lemma analyze_cases (df : DataFrame) (col_x col_y : string) :
  (exists e, clean parse_float df col_x col_y = inl e /\
             run df col_x col_y = ([], Raised e))
  \/ (exists data, clean parse_float df col_x col_y = inr data /\
                   nrows data < 3 /\
                   run df col_x col_y
                   = ([st_error (LANG lang_sel k_error_pairs)], Stopped))
  \/ (exists x y, clean parse_float df col_x col_y
                  = inr [(col_x, FloatCol x); (col_y, FloatCol y)] /\
                  3 <= List.length x /\
                  run df col_x col_y = run_cleaned col_x col_y x y).
Proof.
  destruct (clean parse_float df col_x col_y) as [e | data] eqn:Hc.
  - left. exists e. split; [reflexivity|]. unfold analyze. now rewrite Hc.
  - right.
    destruct (clean_shape _ _ _ _ _ Hc) as (x & y & -> & _).
    destruct (Nat.ltb_spec (List.length x) 3) as [Hlt | Hge].
    + left. eexists. split; [reflexivity|]. split; [exact Hlt|].
      unfold analyze. rewrite Hc. cbn [lift bind nrows series_len].
      destruct (Nat.ltb_spec (List.length x) 3); [reflexivity | lia].
    + right. exists x, y. split; [reflexivity|]. split; [exact Hge|].
      now apply reaches.
Qed.

(** X8: the "not enough data" message and [st.stop()] go together: a run
    is stopped exactly when it rendered an error message, the message is
    then the only thing rendered, and cleaning had left fewer than 3
    rows.  A run that renders results never shows the message. *)
Theorem error_iff_stopped (df : DataFrame) (col_x col_y : string) :
  (snd (run df col_x col_y) = Stopped
   <-> exists body, In (st_error body) (fst (run df col_x col_y)))
  /\ (snd (run df col_x col_y) = Stopped ->
      fst (run df col_x col_y) = [st_error (LANG lang_sel k_error_pairs)]
      /\ exists data, clean parse_float df col_x col_y = inr data /\
                      nrows data < 3).
Proof.
  destruct (analyze_cases df col_x col_y)
    as [(e & Hc & ->) | [(data & Hc & Hlt & ->) | (x & y & Hc & Hge & ->)]];
    simpl.
  - split; [split|]; try discriminate. intros [body []].
  - split; [split|].
    + intros _. eexists. now left.
    + reflexivity.
    + intros _. split; [reflexivity|]. now exists data.
  - destruct (analyze_cleaned_no_error col_x col_y x y) as (N1 & N2 & _).
    split; [split|].
    + intros H. contradiction.
    + intros [body H]. now apply N2 in H.
    + intros H. contradiction.
Qed.


End HandlerOutcome.

(** ** More on binary64 order: negation, reflexivity, transitivity *)

Module FloatOrder.

Import FloatFacts.

Lemma rank_opp (a : spec_float) :
  rank (SFopp a)
  = let '(p1, p2, p3) := rank a in (- p1, - p2, - p3)%Z.
Proof.
  destruct a as [s|s| |s m e]; try destruct s; simpl; try reflexivity.
  now rewrite Z.opp_involutive.
Qed.

Lemma opp_is_nan (x : float) : is_nan (- x) = is_nan x.
Proof.
  destruct (is_nan x) eqn:E.
  - apply is_nan_eq in E. subst x. reflexivity.
  - apply not_nan_spec. rewrite opp_spec. apply not_nan_spec in E.
    destruct (Prim2SF x); simpl; congruence.
Qed.

Lemma abs_opp (x : float) : abs (- x) = abs x.
Proof.
  apply Prim2SF_inj. rewrite !abs_spec, opp_spec.
  destruct (Prim2SF x); reflexivity.
Qed.

(** [0 < -x] is [x < 0]. *)
Lemma ltb_opp_zero (x : float) : (0 <? - x)%float = (x <? 0)%float.
Proof.
  apply eq_true_iff_eq. rewrite !ltb_rank, opp_is_nan, opp_spec, rank_opp.
  change (rank (Prim2SF 0)) with (0, 0, 0)%Z.
  change (is_nan 0) with false.
  destruct (rank (Prim2SF x)) as [[p1 p2] p3]. unfold lex_lt.
  intuition lia.
Qed.

(** Equality with zero, by rank. *)
Lemma eqb_zero_rank (x : float) :
  (x =? 0)%float = true <->
  is_nan x = false /\ rank (Prim2SF x) = (0, 0, 0)%Z.
Proof.
  rewrite FloatAxioms.eqb_spec, not_nan_spec. unfold SFeqb.
  pose proof (SFcompare_Eq_rank (Prim2SF x) (Prim2SF 0)) as HE.
  change (rank (Prim2SF 0)) with (0, 0, 0)%Z in HE.
  destruct (SFcompare (Prim2SF x) (Prim2SF 0)) as [[| |]|]; split;
    try discriminate; try reflexivity;
    try (intros _; destruct HE as [HE _]; specialize (HE eq_refl); tauto);
    intros [N R]; destruct HE as [_ HE];
    (discriminate HE; repeat split; [exact N | discriminate | exact R]).
Qed.

(** Neither [0 < x] nor [x < 0]: zero or NaN. *)
Lemma neither_sign (x : float) :
  (0 <? x)%float = false /\ (x <? 0)%float = false <->
  (x =? 0)%float = true \/ is_nan x = true.
Proof.
  destruct (is_nan x) eqn:N.
  - apply is_nan_eq in N. subst x. split; [now right|].
    intros _. split; reflexivity.
  - rewrite eqb_zero_rank, N.
    pose proof (ltb_rank 0 x) as H1. pose proof (ltb_rank x 0) as H2.
    rewrite N in H1, H2.
    change (rank (Prim2SF 0)) with (0, 0, 0)%Z in H1, H2.
    change (is_nan 0) with false in H1, H2.
    destruct (rank (Prim2SF x)) as [[p1 p2] p3]. unfold lex_lt in *.
    assert (A1 : (0 <? x)%float = true <->
                 (0 < p1 \/ 0 = p1 /\ (0 < p2 \/ 0 = p2 /\ 0 < p3))%Z)
      by tauto.
    assert (A2 : (x <? 0)%float = true <->
                 (p1 < 0 \/ p1 = 0 /\ (p2 < 0 \/ p2 = 0 /\ p3 < 0))%Z)
      by tauto.
    clear H1 H2.
    destruct (0 <? x)%float, (x <? 0)%float; split; intros H;
      try (destruct H as [A B]; discriminate);
      try (destruct H as [[_ R] | R];
           [injection R as -> -> -> | discriminate R]);
      try (destruct A1 as [A1 _]; specialize (A1 eq_refl); lia);
      try (destruct A2 as [A2 _]; specialize (A2 eq_refl); lia).
    + left. split; [reflexivity|].
      assert (~ (0 < p1 \/ 0 = p1 /\ (0 < p2 \/ 0 = p2 /\ 0 < p3)))%Z
        by (intros C; apply A1 in C; discriminate C).
      assert (~ (p1 < 0 \/ p1 = 0 /\ (p2 < 0 \/ p2 = 0 /\ p3 < 0)))%Z
        by (intros C; apply A2 in C; discriminate C).
      f_equal; [f_equal|]; lia.
    + split; reflexivity.
Qed.

Lemma pos_and_neg (x : float) :
  (0 <? x)%float = true -> (x <? 0)%float = true -> False.
Proof.
  rewrite !ltb_rank. change (rank (Prim2SF 0)) with (0, 0, 0)%Z.
  destruct (rank (Prim2SF x)) as [[p1 p2] p3]. unfold lex_lt.
  intros (_ & _ & H1) (_ & _ & H2). lia.
Qed.

Lemma leb_refl (x : float) : is_nan x = false -> (x <=? x)%float = true.
Proof.
  intros N. apply leb_rank. auto.
Qed.

Lemma ltb_leb (a b : float) :
  (a <? b)%float = true -> (a <=? b)%float = true.
Proof.
  rewrite ltb_rank, leb_rank. tauto.
Qed.

Lemma leb_trans (a b c : float) :
  (a <=? b)%float = true -> (b <=? c)%float = true ->
  (a <=? c)%float = true.
Proof.
  rewrite !leb_rank.
  intros (Na & Nb & H1) (_ & Nc & H2). repeat split; auto.
  destruct H1 as [H1 | H1], H2 as [H2 | H2].
  - left. eapply lex_lt_trans; eassumption.
  - left. now rewrite <- H2.
  - left. now rewrite H1.
  - right. congruence.
Qed.

Lemma leb_ltb_trans (a b c : float) :
  (a <=? b)%float = true -> (b <? c)%float = true -> (a <? c)%float = true.
Proof.
  rewrite !ltb_rank, leb_rank.
  intros (Na & Nb & [H1 | H1]) (_ & Nc & H2); repeat split; auto.
  - eapply lex_lt_trans; eassumption.
  - now rewrite H1.
Qed.

End FloatOrder.

(** ** More on direction and strength *)

Section InterpretationMore.

Import FloatFacts FloatOrder.

(** X10: negating the coefficient keeps the strength, and turns the
    direction over except at zero and NaN: [-r] is "positive" exactly when
    [r < 0], and [r] and [-r] get the same direction exactly when [r] is
    zero or NaN (both are then "negative"). *)
Theorem sign_flip (l : lang) (r : float) :
  strength (LANG l) (- r) = strength (LANG l) r
  /\ (direction (LANG l) (- r) = LANG l k_positive
      <-> (r <? 0)%float = true)
  /\ (direction (LANG l) (- r) = direction (LANG l) r
      <-> (r =? 0)%float = true \/ is_nan r = true)
  /\ (direction (LANG l) (- r) = direction (LANG l) r
      -> direction (LANG l) r = LANG l k_negative).
Proof.
  pose proof (labels_distinct l) as (_ & _ & _ & _ & _ & _ & D).
  pose proof (neither_sign r) as NS. pose proof (pos_and_neg r) as PN.
  split; [unfold strength; now rewrite abs_opp|].
  unfold direction. rewrite ltb_opp_zero.
  destruct (0 <? r)%float, (r <? 0)%float; repeat split; intros;
    try reflexivity; try congruence; try tauto;
    try (exfalso; now apply PN).
  - exfalso. destruct NS as [_ NS]. specialize (NS H).
    destruct NS; discriminate.
  - exfalso. destruct NS as [_ NS]. specialize (NS H).
    destruct NS; discriminate.
Qed.

(** X11: the strength never decreases with the magnitude: when
    |r1| <= |r2|, a "strong" r1 makes r2 "strong", a "very weak" r2 makes
    r1 "very weak", and the two middle labels move by at most that
    order. *)
Theorem strength_monotone (l : lang) (r1 r2 : float) :
  (abs r1 <=? abs r2)%float = true ->
  let T := LANG l in
  (strength T r1 = T k_strong -> strength T r2 = T k_strong)
  /\ (strength T r2 = T k_very_weak -> strength T r1 = T k_very_weak)
  /\ (strength T r1 = T k_moderate ->
      strength T r2 = T k_moderate \/ strength T r2 = T k_strong)
  /\ (strength T r2 = T k_weak ->
      strength T r1 = T k_very_weak \/ strength T r1 = T k_weak).
Proof.
  intros Hle T.
  pose proof (labels_distinct l) as (D1 & D2 & D3 & D4 & D5 & D6 & _).
  fold T in D1, D2, D3, D4, D5, D6.
  pose proof (leb_ltb_trans _ _ 0.3 Hle) as M3.
  pose proof (leb_ltb_trans _ _ 0.5 Hle) as M5.
  pose proof (leb_ltb_trans _ _ 0.7 Hle) as M7.
  unfold strength.
  destruct (abs r2 <? 0.3)%float, (abs r2 <? 0.5)%float,
    (abs r2 <? 0.7)%float;
    try rewrite (M3 eq_refl); try rewrite (M5 eq_refl);
    try rewrite (M7 eq_refl);
    destruct (abs r1 <? 0.3)%float, (abs r1 <? 0.5)%float,
      (abs r1 <? 0.7)%float;
    repeat split; intros; try reflexivity; try congruence; auto.
Qed.

End InterpretationMore.

(** ** The drawn line *)

Section LineSpan.

Import FloatFacts FloatOrder.

Lemma fold_min_spec (l : list float) (m : float) :
  is_nan m = false ->
  (forall v, In v l -> is_nan v = false) ->
  let r := fold_left (fun m y => if (y <? m)%float then y else m) l m in
  (r = m \/ In r l) /\ (r <=? m)%float = true /\
  forall v, In v l -> (r <=? v)%float = true.
Proof.
  revert m. induction l as [|y l IH]; intros m Nm Nl; simpl.
  - repeat split; [now left | now apply leb_refl | contradiction].
  - assert (Ny : is_nan y = false) by (apply Nl; now left).
    set (m' := if (y <? m)%float then y else m).
    assert (Nm' : is_nan m' = false)
      by (unfold m'; destruct (y <? m)%float; assumption).
    assert (Hm : (m' <=? m)%float = true /\ (m' <=? y)%float = true).
    { unfold m'. destruct (y <? m)%float eqn:E.
      - split; [now apply ltb_leb | now apply leb_refl].
      - split; [now apply leb_refl | now apply ltb_false_leb]. }
    destruct (IH m' Nm' (fun v Hv => Nl v (or_intror Hv)))
      as (Hin & Hle & Hall).
    repeat split.
    + destruct Hin as [-> | Hin]; [|now right; right].
      unfold m'. destruct (y <? m)%float; [right; now left | now left].
    + apply (leb_trans _ m'); tauto.
    + intros v [<- | Hv]; [apply (leb_trans _ m'); tauto | now apply Hall].
Qed.

Lemma fold_max_spec (l : list float) (m : float) :
  is_nan m = false ->
  (forall v, In v l -> is_nan v = false) ->
  let r := fold_left (fun m y => if (m <? y)%float then y else m) l m in
  (r = m \/ In r l) /\ (m <=? r)%float = true /\
  forall v, In v l -> (v <=? r)%float = true.
Proof.
  revert m. induction l as [|y l IH]; intros m Nm Nl; simpl.
  - repeat split; [now left | now apply leb_refl | contradiction].
  - assert (Ny : is_nan y = false) by (apply Nl; now left).
    set (m' := if (m <? y)%float then y else m).
    assert (Nm' : is_nan m' = false)
      by (unfold m'; destruct (m <? y)%float; assumption).
    assert (Hm : (m <=? m')%float = true /\ (y <=? m')%float = true).
    { unfold m'. destruct (m <? y)%float eqn:E.
      - split; [now apply ltb_leb | now apply leb_refl].
      - split; [now apply leb_refl | now apply ltb_false_leb]. }
    destruct (IH m' Nm' (fun v Hv => Nl v (or_intror Hv)))
      as (Hin & Hle & Hall).
    repeat split.
    + destruct Hin as [-> | Hin]; [|now right; right].
      unfold m'. destruct (m <? y)%float; [right; now left | now left].
    + apply (leb_trans _ m'); tauto.
    + intros v [<- | Hv]; [apply (leb_trans _ m'); tauto | now apply Hall].
Qed.

(** The smallest and the largest value of a column of numbers. *)
Lemma series_min_max (x : list float) :
  x <> [] ->
  (forall v, In v x -> is_nan v = false) ->
  In (series_min x) x /\ In (series_max x) x /\
  forall v, In v x ->
    (series_min x <=? v)%float = true /\ (v <=? series_max x)%float = true.
Proof.
  destruct x as [|a x]; [congruence|]. intros _ N.
  assert (Na : is_nan a = false) by (apply N; now left).
  destruct (fold_min_spec x a Na (fun v Hv => N v (or_intror Hv)))
    as (I1 & L1 & A1).
  destruct (fold_max_spec x a Na (fun v Hv => N v (or_intror Hv)))
    as (I2 & L2 & A2).
  unfold series_min, series_max. repeat split.
  - destruct I1 as [-> | I1]; [now left | now right].
  - destruct I2 as [-> | I2]; [now left | now right].
  - destruct H as [<- | H]; [exact L1 | now apply A1].
  - destruct H as [<- | H]; [exact L2 | now apply A2].
Qed.

Variable parse_float : string -> option float.
Variable shapiro : list float -> exn + (float * float).
Variables pearsonr spearmanr :
  list float -> list float -> exn + (float * float).
Variable linregress : list float -> list float -> exn + (float * float).
Variable linspace : float -> float -> nat -> list float.
Variable fmt : nat -> float -> string.
Variable lang_sel : lang.

Local Notation run :=
  (analyze parse_float shapiro pearsonr spearmanr linregress linspace fmt
           lang_sel).

(** X12: in a completed run whose line fit returned (slope, intercept),
    the figure has exactly one line: it is drawn over the 100 points of
    [linspace] between the smallest and the largest cleaned x value (both
    are values of the column and bound all the others), with
    [intercept + slope * v] at each point [v], and the fit is recorded. *)
Theorem regression_line_span (df : DataFrame) (col_x col_y : string)
        (x y : list float) (slope intercept : float)
        (ev : list event) (res : Result) :
  clean parse_float df col_x col_y
  = inr [(col_x, FloatCol x); (col_y, FloatCol y)] ->
  linregress x y = inr (slope, intercept) ->
  run df col_x col_y = (ev, Ret res) ->
  let lo := series_min x in
  let hi := series_max x in
  let x_line := linspace lo hi 100 in
  let y_line := map (fun v => (intercept + slope * v)%float) x_line in
  filter is_ax_plot ev = [ax_plot x_line y_line]
  /\ List.length y_line = List.length x_line
  /\ res_lr res = Some (slope, intercept)
  /\ In lo x /\ In hi x
  /\ forall v, In v x ->
       (lo <=? v)%float = true /\ (v <=? hi)%float = true.
Proof.
  intros Hc Hf Hr lo hi x_line y_line.
  destruct (analyze_completes _ _ _ _ _ _ _ _ _ _ _ _ _ Hr)
    as (x' & y' & Hc' & Hge & E).
  rewrite Hc in Hc'. injection Hc' as <- <-.
  destruct (clean_shape _ _ _ _ _ Hc) as (x' & y' & E' & _ & Nx & _).
  injection E' as <- <-.
  assert (Hne : x <> []) by (destruct x; [simpl in Hge; lia | discriminate]).
  destruct (series_min_max x Hne Nx) as (I1 & I2 & B).
  unfold analyze_cleaned, regression_line in E. rewrite Hf in E.
  destruct (correlate pearsonr spearmanr (safe_shapiro shapiro x)
                      (safe_shapiro shapiro y) x y)
    as [e | [method [corr pval]]]; simpl in E; [discriminate E|].
  injection E as <- <-. simpl.
  split; [reflexivity|]. split; [apply length_map|].
  split; [reflexivity|]. split; [exact I1|]. split; [exact I2|].
  exact B.
Qed.

End LineSpan.

(** ** The conversion tool *)

Section ConversionFacts.

Variable parse_float : string -> option float.

Local Notation tn := (to_numeric_series parse_float).

(** Conversion of the columns whose label is in [cols]. *)
Local Notation converted cols :=
  (map (fun p : string * Series =>
          if existsb (String.eqb (fst p)) cols
          then (fst p, to_numeric_series parse_float (snd p)) else p)).

Lemma to_numeric_series_twice (s : Series) : tn (tn s) = tn s.
Proof. destruct s; reflexivity. Qed.

Lemma in_labels (df : DataFrame) (c : string) :
  In c (map fst df) -> exists s, In (c, s) df.
Proof.
  intros H. apply in_map_iff in H. destruct H as ([l s] & <- & H).
  now exists s.
Qed.

Lemma convert_column_unique (df : DataFrame) (c : string) :
  NoDup (map fst df) ->
  In c (map fst df) ->
  convert_column parse_float df c = inr (converted [c] df).
Proof.
  intros Hnd Hc. destruct (in_labels _ _ Hc) as [s Hin].
  pose proof (select_unique parse_float _ _ _ Hnd Hin) as Hs.
  rewrite (convert_column_single _ _ _ _ Hs). f_equal.
  unfold setitem.
  assert (existsb (has_label c) df = true) as ->.
  { apply existsb_exists. exists (c, s). split; [exact Hin|].
    apply String.eqb_refl. }
  apply map_ext_in. intros p Hp. unfold has_label. simpl.
  rewrite orb_false_r.
  destruct (String.eqb_spec (fst p) c) as [E | _]; [|reflexivity].
  assert (In p (select df c)).
  { apply filter_In. split; [exact Hp|]. unfold has_label.
    rewrite E. apply String.eqb_refl. }
  rewrite Hs in H. destruct H as [<- | []]. simpl.
  now rewrite to_numeric_series_coerced.
Qed.

Lemma converted_labels (cols : list string) (df : DataFrame) :
  map fst (converted cols df) = map fst df.
Proof.
  rewrite map_map. apply map_ext. intros p.
  now destruct (existsb (String.eqb (fst p)) cols).
Qed.

Lemma converted_cons (c : string) (cs : list string) (df : DataFrame) :
  converted cs (converted [c] df) = converted (c :: cs) df.
Proof.
  rewrite map_map. apply map_ext. intros [l s]. simpl.
  rewrite orb_false_r.
  destruct (String.eqb l c); simpl;
    destruct (existsb (String.eqb l) cs); simpl;
    rewrite ?to_numeric_series_twice; reflexivity.
Qed.

(** The loop over the selected columns, on a frame that has them all. *)
Lemma apply_convert_map (cols : list string) (df : DataFrame) :
  NoDup (map fst df) ->
  (forall c, In c cols -> In c (map fst df)) ->
  apply_convert parse_float df cols = inr (converted cols df).
Proof.
  revert df. induction cols as [|c cs IH]; intros df Hnd Hin; simpl.
  - f_equal. clear. induction df as [|p df IHd]; simpl; congruence.
  - rewrite (convert_column_unique df c Hnd) by (apply Hin; now left).
    cbn [bind_exn].
    rewrite IH.
    + now rewrite converted_cons.
    + now rewrite converted_labels.
    + intros c' Hc'. rewrite converted_labels. apply Hin. now right.
Qed.

Lemma converted_twice (cols : list string) (df : DataFrame) :
  converted cols (converted cols df) = converted cols df.
Proof.
  rewrite map_map. apply map_ext. intros [l s]. simpl.
  destruct (existsb (String.eqb l) cols) eqn:E; simpl; rewrite E;
    rewrite ?to_numeric_series_twice; reflexivity.
Qed.

Lemma to_numeric_series_len (s : Series) : series_len (tn s) = series_len s.
Proof. destruct s; simpl; [reflexivity | apply length_map]. Qed.

(** X13: on a frame whose labels are all different, converting selected
    columns that the frame has never raises; it replaces exactly the
    selected columns by their coercion, each other column staying as it
    is, keeps the labels, their order and the length of every column, and
    converting the result once more changes nothing. *)
Theorem apply_convert_spec (df : DataFrame) (cols : list string) :
  NoDup (map fst df) ->
  (forall c, In c cols -> In c (map fst df)) ->
  exists df',
    apply_convert parse_float df cols = inr df' /\
    df' = map (fun p : string * Series =>
                 if existsb (String.eqb (fst p)) cols
                 then (fst p, to_numeric_series parse_float (snd p))
                 else p) df /\
    map fst df' = map fst df /\
    map (fun p => series_len (snd p)) df'
    = map (fun p => series_len (snd p)) df /\
    apply_convert parse_float df' cols = inr df'.
Proof.
  intros Hnd Hin. eexists. split; [now apply apply_convert_map|].
  split; [reflexivity|]. split; [apply converted_labels|]. split.
  - rewrite map_map. apply map_ext. intros [l s]. simpl.
    destruct (existsb (String.eqb l) cols); simpl;
      now rewrite ?to_numeric_series_len.
  - rewrite apply_convert_map.
    + now rewrite converted_twice.
    + now rewrite converted_labels.
    + intros c Hc. rewrite converted_labels. now apply Hin.
Qed.

Lemma existsb_eqb_In (c : string) (cols : list string) :
  existsb (String.eqb c) cols = true <-> In c cols.
Proof.
  rewrite existsb_exists. split.
  - intros (c' & Hc' & E). apply String.eqb_eq in E. now subst.
  - intros H. exists c. split; [exact H | apply String.eqb_refl].
Qed.

(** X14: after the conversion every selected column is a numeric column,
    so it is offered by the select boxes, also when none of its values
    could be read as a number; the columns that were numeric remain so,
    and a column that was not selected keeps its values. *)
Theorem conversion_makes_numeric (df df' : DataFrame) (cols : list string) :
  NoDup (map fst df) ->
  (forall c, In c cols -> In c (map fst df)) ->
  apply_convert parse_float df cols = inr df' ->
  (forall c, In c cols -> In c (numeric_cols df'))
  /\ (forall c, In c (numeric_cols df) -> In c (numeric_cols df'))
  /\ (forall c s, ~ In c cols -> In (c, s) df -> In (c, s) df')
  /\ (forall c, In c (numeric_cols df') ->
        In c cols \/ In c (numeric_cols df)).
Proof.
  intros Hnd Hin H. rewrite (apply_convert_map _ _ Hnd Hin) in H.
  injection H as <-. unfold numeric_cols. repeat split.
  - intros c Hc. destruct (in_labels _ _ (Hin c Hc)) as [s Hs].
    apply in_map_iff. exists (c, tn s). split; [reflexivity|].
    apply filter_In. split; [|now destruct s].
    apply in_map_iff. exists (c, s). split; [|exact Hs]. simpl.
    now rewrite (proj2 (existsb_eqb_In c cols) Hc).
  - intros c Hc. apply in_map_iff in Hc.
    destruct Hc as ([l s] & <- & Hc). apply filter_In in Hc.
    destruct Hc as [Hc Hd]. simpl in *.
    apply in_map_iff. exists (l, tn s). split; [reflexivity|].
    apply filter_In. split; [|now destruct s].
    apply in_map_iff. exists (l, s). split; [|exact Hc]. simpl.
    destruct (existsb (String.eqb l) cols); [reflexivity|].
    destruct s; [reflexivity | discriminate Hd].
  - intros c s Hc Hs. apply in_map_iff. exists (c, s).
    split; [|exact Hs]. simpl.
    destruct (existsb (String.eqb c) cols) eqn:E; [|reflexivity].
    apply existsb_eqb_In in E. contradiction.
  - intros c Hc. apply in_map_iff in Hc.
    destruct Hc as ([l s] & <- & Hc). apply filter_In in Hc.
    destruct Hc as [Hc Hd]. apply in_map_iff in Hc.
    destruct Hc as ([l0 s0] & E & Hc). simpl in *.
    destruct (existsb (String.eqb l0) cols) eqn:Ex.
    + injection E as <- <-. left. now apply existsb_eqb_In.
    + injection E as <- <-. right. apply in_map_iff.
      exists (l0, s0). split; [reflexivity|]. apply filter_In. auto.
Qed.

(** X15: a selected label that names no column makes the conversion
    raise [KeyError]. *)
Theorem apply_convert_missing (df : DataFrame) (cols : list string)
        (c : string) :
  NoDup (map fst df) ->
  In c cols ->
  ~ In c (map fst df) ->
  apply_convert parse_float df cols = inl KeyError.
Proof.
  intros Hnd Hc Hno. revert df Hnd Hno.
  induction cols as [|c0 cs IH]; intros df Hnd Hno; [contradiction|].
  simpl.
  destruct (in_dec string_dec c0 (map fst df)) as [Hin | Hout].
  - rewrite (convert_column_unique df c0 Hnd Hin). cbn [bind_exn].
    destruct Hc as [-> | Hc]; [contradiction|].
    apply (IH Hc).
    + now rewrite converted_labels.
    + now rewrite converted_labels.
  - rewrite convert_column_none; [reflexivity|].
    destruct (select df c0) as [|p r] eqn:E; [reflexivity|].
    exfalso. apply Hout.
    assert (In p (select df c0)) by (rewrite E; now left).
    rewrite <- (select_label df c0 p H).
    apply in_map. apply filter_In in H. tauto.
Qed.

End ConversionFacts.

(** ** Reading the file, the default selections, the page *)

Section PageFacts.

Lemma lower_app (a b : string) :
  lower (a ++ b)%string = (lower a ++ lower b)%string.
Proof.
  induction a as [|c a IH]; simpl; [reflexivity | now rewrite IH].
Qed.

Lemma endswith_unfold (s suffix : string) :
  endswith s suffix
  = if String.eqb s suffix then true
    else match s with
         | EmptyString => false
         | String _ s' => endswith s' suffix
         end.
Proof. destruct s; reflexivity. Qed.

Lemma endswith_app (a suffix : string) :
  endswith (a ++ suffix)%string suffix = true.
Proof.
  induction a as [|c a IH].
  - rewrite endswith_unfold. simpl. now rewrite String.eqb_refl.
  - change (String c a ++ suffix)%string with (String c (a ++ suffix)).
    rewrite endswith_unfold. cbv beta iota. rewrite IH.
    now destruct (String.eqb (String c (a ++ suffix)) suffix).
Qed.

Lemma eqb_length (s t : string) :
  String.eqb s t = true -> String.length s = String.length t.
Proof.
  intros H. apply String.eqb_eq in H. now subst.
Qed.

Lemma endswith_short (s suffix : string) :
  String.length s < String.length suffix -> endswith s suffix = false.
Proof.
  induction s as [|c s IH]; intros H; rewrite endswith_unfold;
    cbv beta iota.
  - destruct (String.eqb "" suffix) eqn:E; [|reflexivity].
    apply eqb_length in E. simpl in *. lia.
  - destruct (String.eqb (String c s) suffix) eqn:E.
    + apply eqb_length in E. lia.
    + apply IH. simpl in H. lia.
Qed.

Lemma string_length_app (a b : string) :
  String.length (a ++ b)%string = String.length a + String.length b.
Proof.
  induction a as [|c a IH]; simpl; [reflexivity | now rewrite IH].
Qed.

Lemma endswith_xlsx (a : string) :
  endswith (a ++ ".xlsx")%string ".csv" = false.
Proof.
  induction a as [|c a IH]; [reflexivity|].
  change (String c a ++ ".xlsx")%string with (String c (a ++ ".xlsx")).
  rewrite endswith_unfold. cbv beta iota.
  destruct (String.eqb (String c (a ++ ".xlsx")) ".csv") eqn:E;
    [|exact IH].
  apply eqb_length in E. simpl in E. rewrite string_length_app in E.
  simpl in E. lia.
Qed.

Lemma lower_length (s : string) : String.length (lower s) = String.length s.
Proof.
  induction s as [|c s IH]; simpl; [reflexivity | now rewrite IH].
Qed.

Variable File : Type.
Variable file_name : File -> string.
Variables read_csv read_excel : File -> exn + DataFrame.

(** X16: the reader is chosen by the extension of the file name, in any
    letter case: a name that ends in ".csv" goes to [read_csv], a name
    that ends in ".xlsx" to [read_excel], and so does a name too short to
    carry ".csv". *)
Theorem read_data_dispatch (file : File) :
  (forall base ext,
     file_name file = (base ++ ext)%string -> lower ext = ".csv" ->
     read_data File file_name read_csv read_excel file = read_csv file)
  /\ (forall base ext,
        file_name file = (base ++ ext)%string -> lower ext = ".xlsx" ->
        read_data File file_name read_csv read_excel file
        = read_excel file)
  /\ (String.length (file_name file) < 4 ->
      read_data File file_name read_csv read_excel file = read_excel file).
Proof.
  unfold read_data. repeat split.
  - intros base ext -> E. now rewrite lower_app, E, endswith_app.
  - intros base ext -> E. now rewrite lower_app, E, endswith_xlsx.
  - intros H. rewrite endswith_short; [reflexivity|].
    now rewrite lower_length.
Qed.

Lemma NoDup_map_filter {A B : Type} (f : A -> B) (g : A -> bool)
      (l : list A) :
  NoDup (map f l) -> NoDup (map f (filter g l)).
Proof.
  induction l as [|a l IH]; simpl; intros H; [constructor|].
  inversion H as [|? ? Hn Hd]; subst.
  destruct (g a); simpl; [|now apply IH].
  constructor; [|now apply IH].
  intros C. apply Hn. apply in_map_iff in C.
  destruct C as (a' & E & C). apply filter_In in C.
  rewrite <- E. apply in_map. tauto.
Qed.

Variable parse_float : string -> option float.
Variable shapiro : list float -> exn + (float * float).
Variables pearsonr spearmanr :
  list float -> list float -> exn + (float * float).
Variable linregress : list float -> list float -> exn + (float * float).
Variable linspace : float -> float -> nat -> list float.
Variable fmt : nat -> float -> string.

Local Notation run l :=
  (analyze parse_float shapiro pearsonr spearmanr linregress linspace fmt l).

(** X17: the selection the two boxes start with.  On a frame with
    different labels and at least one numeric column both boxes show a
    numeric column; they show the same one exactly when the frame has a
    single numeric column, and then the analysis of that selection raises
    [TypeError]; with two or more they differ, and cleaning succeeds. *)
Theorem default_selection (l : lang) (df : DataFrame) :
  NoDup (map fst df) ->
  numeric_cols df <> [] ->
  exists col_x col_y,
    selectbox_default (numeric_cols df) 0 = Some col_x /\
    selectbox_default (numeric_cols df) (index_y (numeric_cols df))
    = Some col_y /\
    In col_x (numeric_cols df) /\ In col_y (numeric_cols df) /\
    (col_x = col_y <-> List.length (numeric_cols df) = 1) /\
    (col_x = col_y -> run l df col_x col_y = ([], Raised TypeError)) /\
    (col_x <> col_y ->
     exists data, clean parse_float df col_x col_y = inr data).
Proof.
  intros Hnd Hne.
  pose proof (NoDup_map_filter fst (fun p => numeric_dtype (snd p)) df Hnd)
    as Hn. fold (numeric_cols df) in Hn.
  assert (Hsel : forall c, In c (numeric_cols df) ->
                 exists v, select df c = [(c, FloatCol v)]).
  { intros c Hc. destruct (numeric_cols_float _ _ Hc) as [v Hv].
    exists v. now apply (select_unique parse_float). }
  unfold selectbox_default, index_y.
  destruct (numeric_cols df) as [|a [|b r]] eqn:E; [congruence| |].
  - exists a, a. simpl.
    destruct (Hsel a (or_introl eq_refl)) as [v Hv].
    repeat split; auto.
    + intros _. rewrite analyze_same_column, Hv. reflexivity.
    + intros C. congruence.
  - exists a, b. simpl.
    assert (Hab : a <> b).
    { inversion Hn as [|? ? Hna _]; subst. intros ->. apply Hna. now left. }
    destruct (Hsel a (or_introl eq_refl)) as [va Ha].
    destruct (Hsel b (or_intror (or_introl eq_refl))) as [vb Hb].
    repeat split; auto.
    + intros C. congruence.
    + intros C. discriminate C.
    + intros C. congruence.
    + intros _. eexists. apply (clean_distinct _ _ _ _ _ _ Ha Hb Hab).
Qed.

End PageFacts.

(** ** A run of the whole page *)

Section PageRun.

Variable File : Type.
Variable file_name : File -> string.
Variables read_csv read_excel : File -> exn + DataFrame.
Variable parse_float : string -> option float.
Variable shapiro : list float -> exn + (float * float).
Variables pearsonr spearmanr :
  list float -> list float -> exn + (float * float).
Variable linregress : list float -> list float -> exn + (float * float).
Variable linspace : float -> float -> nat -> list float.
Variable fmt : nat -> float -> string.

Local Notation the_page :=
  (page File file_name read_csv read_excel parse_float shapiro pearsonr
        spearmanr linregress linspace fmt).
Local Notation the_file := (read_data File file_name read_csv read_excel).
Local Notation the_tool := (conversion_tool File parse_float).
Local Notation the_table := (descriptive File).
Local Notation the_assoc :=
  (association File parse_float shapiro pearsonr spearmanr linregress
               linspace fmt).
Local Notation handler w df :=
  (analyze parse_float shapiro pearsonr spearmanr linregress linspace fmt
           (w_lang File w) df (w_col_x File w) (w_col_y File w)).

Lemma top_no_handler (w : Widgets File) (e : event) :
  ~ In (in_handler e) (page_top File w).
Proof. simpl. intuition discriminate. Qed.

Lemma tool_no_handler (w : Widgets File) (df : DataFrame) (e : event) :
  ~ In (in_handler e) (fst (the_tool w df)).
Proof.
  unfold conversion_tool.
  destruct (convert_candidates df); [simpl; intuition discriminate|].
  destruct (w_apply_convert File w); [|simpl; intuition discriminate].
  destruct (apply_convert parse_float df (w_cols_to_convert File w));
    simpl; intuition discriminate.
Qed.

Lemma table_no_handler (w : Widgets File) (df : DataFrame)
      (cols : list string) (e : event) :
  ~ In (in_handler e) (fst (the_table w df cols)).
Proof.
  unfold descriptive.
  destruct (w_desc_cols File w); [simpl; intuition discriminate|].
  destruct (getitem_list df (s :: l)); simpl; intuition discriminate.
Qed.

Lemma in_map_handler (ev : list event) (e : event) :
  In (in_handler e) (map in_handler ev) <-> In e ev.
Proof.
  rewrite in_map_iff. split.
  - intros (e' & [= ->] & H). exact H.
  - intros H. now exists e.
Qed.

(** X18: the handler runs only when a file was uploaded and read, the
    frame left by the conversion tool has a numeric column, and the
    analysis button was pressed; what it renders is then what the handler
    renders for that frame and the two selected columns. *)
Theorem handler_reached_only (w : Widgets File) (e : event) :
  In (in_handler e) (fst (the_page w)) ->
  w_analyze File w = true /\
  exists file df0 df,
    w_uploaded_file File w = Some file /\
    the_file file = inr df0 /\
    snd (the_tool w df0) = inr df /\
    numeric_cols df <> [] /\
    In e (fst (handler w df)).
Proof.
  pose proof (top_no_handler w e) as Htop.
  unfold page.
  destruct (w_uploaded_file File w) as [file|] eqn:Hu.
  2:{ cbn [fst]. rewrite in_app_iff. simpl. intros H. exfalso. intuition congruence. }
  destruct (the_file file) as [e0 | df0] eqn:Hr;
    [cbn [fst]; intros H; exfalso; tauto|].
  pose proof (tool_no_handler w df0 e) as Ht.
  destruct (the_tool w df0) as [tool [e1 | df]] eqn:Hc; cbn [fst] in Ht.
  { cbn [fst]. rewrite !in_app_iff. simpl. intros H. exfalso. intuition congruence. }
  destruct (numeric_cols df) as [|c cs] eqn:Hn.
  { cbn [fst]. rewrite !in_app_iff. simpl. intros H. exfalso. intuition congruence. }
  pose proof (table_no_handler w df (c :: cs) e) as Hd.
  destruct (the_table w df (c :: cs)) as [table [e2 | u]]; cbn [fst] in Hd.
  { cbn [fst]. rewrite !in_app_iff. simpl. intros H. exfalso. intuition congruence. }
  unfold association.
  destruct (w_analyze File w) eqn:Ha.
  - destruct (handler w df) as [ev o] eqn:Hh.
    cbn [fst]. rewrite !in_app_iff, in_map_handler. simpl.
    intros H. split; [reflexivity|]. exists file, df0, df.
    split; [reflexivity|]. split; [exact Hr|].
    split; [now rewrite Hc|]. split; [rewrite Hn; discriminate|].
    rewrite Hh. cbn [fst]. intuition congruence.
  - cbn [fst]. rewrite !in_app_iff. simpl. intros H. exfalso.
    intuition congruence.
Qed.

(** X19: when the frame left by the conversion tool has no numeric
    column, the run ends with the warning and [st.stop()]: no descriptive
    table, no select box and no analysis, whatever the other widgets
    return. *)
Theorem no_numeric_columns (w : Widgets File) (file : File)
        (df0 df : DataFrame) (tool : list page_event) :
  w_uploaded_file File w = Some file ->
  the_file file = inr df0 ->
  the_tool w df0 = (tool, inr df) ->
  numeric_cols df = [] ->
  the_page w
  = (page_top File w
     ++ [ page_subheader (PAGE_LANG (w_lang File w) pk_preview);
          st_dataframe (head df0) ]
     ++ tool
     ++ [st_warning (PAGE_LANG (w_lang File w) pk_warn_no_numeric)],
     Stopped)
  /\ (forall e, ~ In (in_handler e) (fst (the_page w)))
  /\ (forall label options index,
        ~ In (st_selectbox label options index) (fst (the_page w)))
  /\ (forall d, ~ In (st_describe d) (fst (the_page w))).
Proof.
  intros Hu Hr Hc Hn.
  assert (E : the_page w
              = (page_top File w
                 ++ [ page_subheader (PAGE_LANG (w_lang File w) pk_preview);
                      st_dataframe (head df0) ]
                 ++ tool
                 ++ [st_warning
                       (PAGE_LANG (w_lang File w) pk_warn_no_numeric)],
                 Stopped)).
  { unfold page. rewrite Hu, Hr, Hc, Hn. reflexivity. }
  assert (Ht : (forall label options index,
                  ~ In (st_selectbox label options index) tool) /\
               (forall d, ~ In (st_describe d) tool)).
  { replace tool with (fst (the_tool w df0)) by now rewrite Hc.
    unfold conversion_tool.
    destruct (convert_candidates df0);
      [split; intros; simpl; intuition discriminate|].
    destruct (w_apply_convert File w);
      [|split; intros; simpl; intuition discriminate].
    destruct (apply_convert parse_float df0 (w_cols_to_convert File w));
      split; intros; simpl; intuition discriminate. }
  destruct Ht as [Ht1 Ht2].
  split; [exact E|]. split; [|split].
  - intros e. rewrite E. cbn [fst]. rewrite !in_app_iff. simpl.
    pose proof (top_no_handler w e) as N1.
    pose proof (tool_no_handler w df0 e) as N2. rewrite Hc in N2.
    simpl in N2. intuition congruence.
  - intros label options index. rewrite E. cbn [fst].
    rewrite !in_app_iff. simpl.
    pose proof (Ht1 label options index). intuition congruence.
  - intros d. rewrite E. cbn [fst]. rewrite !in_app_iff. simpl.
    pose proof (Ht2 d). intuition congruence.
Qed.

Lemma select_nonempty (df : DataFrame) (c : string) (s : Series) :
  In (c, s) df -> select df c <> [].
Proof.
  intros H E. assert (In (c, s) (select df c)).
  { apply filter_In. split; [exact H | apply String.eqb_refl]. }
  rewrite E in H0. contradiction.
Qed.

Lemma getitem_list_ok (df : DataFrame) (keys : list string) :
  (forall k, In k keys -> select df k <> []) ->
  exists sub, getitem_list df keys = inr sub.
Proof.
  induction keys as [|k ks IH]; intros H; simpl; [now exists []|].
  destruct (select df k) as [|p r] eqn:E.
  - exfalso. now apply (H k (or_introl eq_refl)).
  - destruct IH as [sub ->]; [intros; apply H; now right|].
    now eexists.
Qed.

(** X20: on a frame with a single numeric column the select boxes can
    only return that column, and pressing the analysis button then always
    ends the run with [TypeError], before the handler renders anything. *)
Theorem single_numeric_column_raises (w : Widgets File) (file : File)
        (df0 df : DataFrame) (tool : list page_event) (c : string) :
  w_uploaded_file File w = Some file ->
  the_file file = inr df0 ->
  the_tool w df0 = (tool, inr df) ->
  numeric_cols df = [c] ->
  (forall d, In d (w_desc_cols File w) -> In d (numeric_cols df)) ->
  In (w_col_x File w) (numeric_cols df) ->
  In (w_col_y File w) (numeric_cols df) ->
  w_analyze File w = true ->
  snd (the_page w) = Raised TypeError /\
  forall e, ~ In (in_handler e) (fst (the_page w)).
Proof.
  intros Hu Hr Hc Hn Hd Hx Hy Ha.
  assert (Hin : In c (numeric_cols df)) by (rewrite Hn; now left).
  destruct (numeric_cols_float _ _ Hin) as [v Hv].
  pose proof (select_nonempty _ _ _ Hv) as Hs.
  rewrite Hn in Hx, Hy, Hd.
  destruct Hx as [Hx | []]. destruct Hy as [Hy | []].
  assert (Hrun : handler w df = ([], Raised TypeError)).
  { rewrite <- Hx, <- Hy, analyze_same_column.
    destruct (select df c); [contradiction | reflexivity]. }
  assert (Htab : exists table,
             the_table w df [c] = (table, inr tt) /\
             forall e, ~ In (in_handler e) table).
  { pose proof (fun e => table_no_handler w df [c] e) as N.
    unfold descriptive in *.
    destruct (w_desc_cols File w) as [|d ds] eqn:Ed.
    - eexists. split; [reflexivity | exact N].
    - destruct (getitem_list_ok df (d :: ds)) as [sub Hsub].
      { intros k Hk. destruct (Hd k Hk) as [<- | []]. exact Hs. }
      rewrite Hsub in *. eexists. split; [reflexivity | exact N]. }
  destruct Htab as (table & Htab & Ntab).
  assert (E : the_page w
              = (page_top File w
                 ++ [ page_subheader (PAGE_LANG (w_lang File w) pk_preview);
                      st_dataframe (head df0) ]
                 ++ tool ++ table
                 ++ [ page_subheader (PAGE_LANG (w_lang File w) pk_select_x);
                      st_selectbox (PAGE_LANG (w_lang File w) pk_select_x)
                                   [c] 0;
                      st_selectbox (PAGE_LANG (w_lang File w) pk_select_y)
                                   [c] 0;
                      st_button (PAGE_LANG (w_lang File w) pk_analyze) ],
                 Raised TypeError)).
  { unfold page. rewrite Hu, Hr, Hc, Hn, Htab.
    unfold association. rewrite Ha, Hrun. reflexivity. }
  rewrite E. split; [reflexivity|].
  intros e. cbn [fst]. rewrite !in_app_iff. simpl.
  pose proof (tool_no_handler w df0 e) as N2. rewrite Hc in N2.
  simpl in N2. pose proof (Ntab e). intuition congruence.
Qed.

End PageRun.

(** ** The further properties at sample inputs *)

Section MoreWitnesses.

Import Sample Cases.

Local Notation sample_run l :=
  (analyze parse_float shapiro pearsonr spearmanr linregress linspace fmt l).
Local Notation sample_page :=
  (page (string * DataFrame) file_name read_csv read_excel parse_float
        shapiro pearsonr spearmanr linregress linspace fmt).

Lemma survey_labels : NoDup (map fst survey).
Proof.
  repeat constructor; simpl; intuition discriminate.
Defined.

Lemma cleaned_values_are_numbers_witness :
  ("y" = "x" \/ "y" = "y") /\
  exists v, FloatCol [2; 7]%float = FloatCol v /\
            forall f, In f v -> is_nan f = false.
Proof.
  apply (cleaned_values_are_numbers parse_float mixed "x" "y"
           [("x", FloatCol [1; 4]%float); ("y", FloatCol [2; 7]%float)]).
  - reflexivity.
  - right. left. reflexivity.
Defined.

Lemma clean_idempotent_witness :
  clean parse_float
        [("x", FloatCol [1; 4]%float); ("y", FloatCol [2; 7]%float)]
        "x" "y"
  = inr [("x", FloatCol [1; 4]%float); ("y", FloatCol [2; 7]%float)].
Proof.
  apply (clean_idempotent parse_float mixed "x" "y").
  - exact mixed_well_formed.
  - reflexivity.
Defined.

Lemma clean_complete_data_witness :
  clean parse_float linear "x" "y" = inr linear.
Proof.
  apply (clean_complete_data parse_float linear "x" "y"
           (FloatCol [1; 2; 3; 4; 5]%float)
           (FloatCol [2; 4; 6; 8; 10]%float)).
  - reflexivity.
  - reflexivity.
  - discriminate.
  - reflexivity.
  - intros r H. simpl in H.
    repeat (destruct H as [<- | H]; [reflexivity|]). contradiction.
Defined.

Lemma method_symmetric_witness :
  clean parse_float linear "y" "x"
  = inr [ ("y", FloatCol [2; 4; 6; 8; 10]%float);
          ("x", FloatCol [1; 2; 3; 4; 5]%float) ].
Proof.
  destruct (method_symmetric parse_float shapiro pearsonr spearmanr
              linregress linspace fmt en_lang linear "x" "y"
              [1; 2; 3; 4; 5]%float [2; 4; 6; 8; 10]%float) as [H _].
  - exact linear_well_formed.
  - reflexivity.
  - exact H.
Defined.

Lemma computable_normality_witness :
  3 <= List.length [1; 2; 3]%float /\
  constant [1; 2; 3]%float = false /\
  exists w, shapiro [1; 2; 3]%float
            = inr (w, safe_shapiro shapiro [1; 2; 3]%float).
Proof.
  apply (computable_normality shapiro [1; 2; 3]%float). reflexivity.
Defined.

Lemma correlation_failure_rendering_witness :
  analyze parse_float shapiro pearsonr_raises spearmanr linregress linspace
          fmt en_lang linear "x" "y"
  = ([ st_subheader "Normality Test (Shapiro-Wilk)";
       st_write "p-value X: 0.0000";
       st_write "p-value Y: 0.0000" ],
     Raised (OtherError "ValueError")).
Proof.
  apply (correlation_failure_rendering parse_float shapiro pearsonr_raises
           spearmanr linregress linspace fmt en_lang linear "x" "y"
           [1; 2; 3; 4; 5]%float [2; 4; 6; 8; 10]%float).
  - reflexivity.
  - simpl. lia.
  - reflexivity.
Defined.


Lemma strength_monotone_witness :
  strength (LANG en_lang) 0.9 = "moderate" \/
  strength (LANG en_lang) 0.9 = "strong".
Proof.
  destruct (strength_monotone en_lang 0.6 0.9) as (_ & _ & H & _).
  - reflexivity.
  - apply H. reflexivity.
Defined.

Lemma regression_line_span_witness :
  exists ev res,
    sample_run en_lang linear "x" "y" = (ev, Ret res) /\
    filter is_ax_plot ev = [ax_plot [1; 5]%float [2; 10]%float].
Proof.
  eexists _, _. split; [reflexivity|].
  edestruct (regression_line_span parse_float shapiro pearsonr spearmanr
               linregress linspace fmt en_lang linear "x" "y"
               [1; 2; 3; 4; 5]%float [2; 4; 6; 8; 10]%float 2 0)
    as [H _].
  - reflexivity.
  - reflexivity.
  - reflexivity.
  - exact H.
Defined.

Lemma apply_convert_spec_witness :
  exists df',
    apply_convert parse_float survey ["age"] = inr df' /\
    map fst df' = ["age"; "city"; "score"].
Proof.
  destruct (apply_convert_spec parse_float survey ["age"])
    as (df' & H1 & _ & H3 & _).
  - exact survey_labels.
  - intros c [<- | []]. simpl. tauto.
  - exists df'. split; [exact H1 | exact H3].
Defined.

Lemma conversion_makes_numeric_witness :
  exists df',
    apply_convert parse_float survey ["age"; "city"] = inr df' /\
    In "city" (numeric_cols df').
Proof.
  eexists. split; [reflexivity|].
  edestruct conversion_makes_numeric
    with (parse_float := parse_float) (df := survey)
         (cols := ["age"; "city"]) as [H _].
  - exact survey_labels.
  - intros c [<- | [<- | []]]; simpl; tauto.
  - reflexivity.
  - apply H. right. left. reflexivity.
Defined.

Lemma apply_convert_missing_witness :
  apply_convert parse_float survey ["age"; "income"] = inl KeyError.
Proof.
  apply (apply_convert_missing parse_float survey ["age"; "income"]
           "income").
  - exact survey_labels.
  - right. left. reflexivity.
  - simpl. intuition discriminate.
Defined.

Lemma default_selection_witness :
  exists col_x col_y,
    selectbox_default (numeric_cols linear) 0 = Some col_x /\
    selectbox_default (numeric_cols linear) (index_y (numeric_cols linear))
    = Some col_y /\
    col_x <> col_y.
Proof.
  destruct (default_selection parse_float shapiro pearsonr spearmanr
              linregress linspace fmt en_lang linear)
    as (cx & cy & H1 & H2 & _ & _ & Hiff & _).
  - exact linear_labels.
  - discriminate.
  - exists cx, cy. repeat split; [exact H1 | exact H2 |].
    intros C. apply Hiff in C. discriminate C.
Defined.

Lemma handler_reached_only_witness :
  w_analyze _ (pressed en_lang linear [] "x" "y") = true /\
  exists file df0 df,
    w_uploaded_file _ (pressed en_lang linear [] "x" "y") = Some file /\
    read_data _ file_name read_csv read_excel file = inr df0 /\
    snd (conversion_tool _ parse_float (pressed en_lang linear [] "x" "y")
                         df0) = inr df /\
    numeric_cols df <> [] /\
    In st_pyplot (fst (sample_run en_lang df "x" "y")).
Proof.
  apply (handler_reached_only (string * DataFrame) file_name read_csv
           read_excel parse_float shapiro pearsonr spearmanr linregress
           linspace fmt (pressed en_lang linear [] "x" "y") st_pyplot).
  cbv. repeat first [left; reflexivity | right].
Defined.

Lemma no_numeric_columns_witness :
  snd (sample_page (pressed id_lang text_only [] "" "")) = Stopped.
Proof.
  destruct (no_numeric_columns (string * DataFrame) file_name read_csv
              read_excel parse_float shapiro pearsonr spearmanr linregress
              linspace fmt (pressed id_lang text_only [] "" "")
              ("data.CSV", text_only) text_only text_only
              (fst (conversion_tool _ parse_float
                      (pressed id_lang text_only [] "" "") text_only)))
    as [H _].
  - reflexivity.
  - reflexivity.
  - reflexivity.
  - reflexivity.
  - rewrite H. reflexivity.
Defined.

Lemma single_numeric_column_raises_witness :
  snd (sample_page (pressed en_lang single ["score"] "score" "score"))
  = Raised TypeError.
Proof.
  destruct (single_numeric_column_raises (string * DataFrame) file_name
              read_csv read_excel parse_float shapiro pearsonr spearmanr
              linregress linspace fmt
              (pressed en_lang single ["score"] "score" "score")
              ("data.CSV", single) single single
              (fst (conversion_tool _ parse_float
                      (pressed en_lang single ["score"] "score" "score")
                      single))
              "score") as [H _].
  - reflexivity.
  - reflexivity.
  - reflexivity.
  - reflexivity.
  - intros d [<- | []]. left. reflexivity.
  - left. reflexivity.
  - left. reflexivity.
  - reflexivity.
  - exact H.
Defined.

End MoreWitnesses.
